(** * DocuChat front end: session orchestration

    A shallow embedding of the client-side logic of the DocuChat front end
    (React components [App], [FileUpload], [DocumentList], [ChatInterface]
    and the transport functions of [services/api.js]), together with the
    properties its specification states about it.

    - [JS]: the pieces of the JavaScript runtime the code relies on
      (strings as UTF-16 code units, [trim], [toLowerCase], [endsWith],
      the [||] operator, template literals).
    - [Proc]: event handlers as resumable processes. A handler runs until
      it finishes or suspends at an [await]; timers and pending requests
      live in a [World] and are fired by [Event]s.
    - [Api], [App], [DocumentList], [FileUpload], [ChatInterface],
      [MessageBubble]: the source files, one module each; [Views] is what
      the components render, [Wires] how [App] connects them. *)

From Stdlib Require Import List NArith Bool Ascii String Lia.
Import ListNotations.

Local Open Scope N_scope.
Local Open Scope list_scope.

(* ================================================================== *)
(** * The JavaScript runtime                                           *)
(* ================================================================== *)

Module JS.

(** A JavaScript string is a sequence of UTF-16 code units. *)
Definition jsstring := list N.

(** An ASCII literal of the source, as code units. *)
Definition lit (s : string) : jsstring :=
  map N_of_ascii (list_ascii_of_string s).

Fixpoint eqb (a b : jsstring) : bool :=
  match a, b with
  | [], [] => true
  | x :: a', y :: b' => N.eqb x y && eqb a' b'
  | _, _ => false
  end.

(** A property read from a JSON object (or a variable that may not hold a
    value): missing, [null], or a value. *)
Inductive field (A : Type) : Type :=
| Undefined : field A
| Null : field A
| Val : A -> field A.
Arguments Undefined {A}.
Arguments Null {A}.
Arguments Val {A} _.

(** [x || d] where [x], when present, is an array: every array is truthy,
    also the empty one. *)
Definition or_array {A} (x : field (list A)) (d : list A) : list A :=
  match x with
  | Val l => l
  | Undefined | Null => d
  end.

(** WhiteSpace and LineTerminator code points of ECMAScript, the characters
    [String.prototype.trim] strips. All of them are in the basic plane. *)
Definition isWhiteSpace (u : N) : bool :=
  (u =? 9) || (u =? 10) || (u =? 11) || (u =? 12) || (u =? 13) ||
  (u =? 32) || (u =? 160) || (u =? 5760) ||
  ((8192 <=? u) && (u <=? 8202)) ||
  (u =? 8232) || (u =? 8233) || (u =? 8239) || (u =? 8287) ||
  (u =? 12288) || (u =? 65279).

Fixpoint trimStart (s : jsstring) : jsstring :=
  match s with
  | [] => []
  | u :: s' => if isWhiteSpace u then trimStart s' else s
  end.

Definition trimEnd (s : jsstring) : jsstring := rev (trimStart (rev s)).

(** [String.prototype.trim]. *)
Definition trim (s : jsstring) : jsstring := trimEnd (trimStart s).

(** Truthiness of a string: [!s] is [true] exactly for the empty string. *)
Definition truthy (s : jsstring) : bool :=
  match s with [] => false | _ :: _ => true end.

(** Lower-case mapping of one code unit. ASCII and Latin-1 capitals move
    by 32; U+0130 becomes [i] followed by U+0307; the Kelvin sign U+212A
    becomes [k] and the Angstrom sign U+212B becomes U+00E5. These are the
    only mappings that involve ASCII letters. Code units outside this table
    are kept: the real mapping sends them to non-ASCII code units as well,
    which the one caller (a comparison with an ASCII suffix) cannot tell
    apart. *)
Definition lowerUnit (u : N) : jsstring :=
  if (65 <=? u) && (u <=? 90) then [u + 32]
  else if (192 <=? u) && (u <=? 222) && negb (u =? 215) then [u + 32]
  else if u =? 304 then [105; 775]
  else if u =? 8490 then [107]
  else if u =? 8491 then [229]
  else [u].

(** [String.prototype.toLowerCase]. *)
Definition toLowerCase (s : jsstring) : jsstring := flat_map lowerUnit s.

Fixpoint startsWith (s p : jsstring) : bool :=
  match p, s with
  | [], _ => true
  | _ :: _, [] => false
  | x :: p', y :: s' => N.eqb x y && startsWith s' p'
  end.

(** [String.prototype.endsWith]. *)
Definition endsWith (s p : jsstring) : bool := startsWith (rev s) (rev p).

(** The decimal digits of [n], least significant first; [fuel] bounds
    their number. *)
Fixpoint digitsFrom (fuel : nat) (n : N) : jsstring :=
  match fuel with
  | O => []
  | S fuel' =>
      (48 + n mod 10) :: (if n <? 10 then [] else digitsFrom fuel' (n / 10))
  end.

(** The decimal expansion of [n], most significant digit first. *)
Definition decimal (n : N) : jsstring :=
  rev (digitsFrom (S (N.to_nat (N.log2 n))) n).

(** The Number nearest to the integer [m] (53 significant bits, ties to
    even), as the integer it is. *)
Definition toDouble (m : N) : N :=
  let bits := N.size m in
  if bits <=? 53 then m
  else
    let sh := bits - 53 in
    let q := N.shiftr m sh in
    let r := m - N.shiftl q sh in
    let half := N.shiftl 1 (sh - 1) in
    let q' := if half <? r then q + 1
              else if r =? half then (if N.even q then q else q + 1)
              else q in
    N.shiftl q' sh.

(** Number::toString, step 5: the least number [k] of digits, and the
    [k]-digit integer [s], such that [s] followed by [nd - k] zeros is read
    back as [x]; of two such [s] the one nearer to [x], the even one when
    they are as near. [nd] is the number of digits of [x]. *)
Fixpoint shortest (fuel : nat) (k x nd : N) : N * N :=
  match fuel with
  | O => (x, nd)
  | S fuel' =>
      let p := 10 ^ (nd - k) in
      let lo := x / p in
      let hi := lo + 1 in
      let okLo := toDouble (lo * p) =? x in
      let okHi := toDouble (hi * p) =? x in
      if okLo && okHi then
        let dl := x - lo * p in
        let dh := hi * p - x in
        (if dl <? dh then lo
         else if dh <? dl then hi
         else if N.even lo then lo else hi, k)
      else if okLo then (lo, k)
      else if okHi then (hi, k)
      else shortest fuel' (k + 1) x nd
  end.

(** Number::toString for an integral Number [x] above 2^53: the digits
    of [s] and zeros up to 21 digits, exponent notation beyond. *)
Definition large (x : N) : jsstring :=
  let nd := N.of_nat (List.length (decimal x)) in
  let (s0, k) := shortest (N.to_nat nd) 1 x nd in
  let (s, n) := if s0 =? 10 ^ k then (10 ^ (k - 1), nd + 1) else (s0, nd) in
  let ds := decimal s in
  if n <=? 21 then ds ++ repeat 48 (N.to_nat (n - k))
  else
    match ds with
    | [] => []
    | d :: rest =>
        d :: (match rest with [] => [] | _ :: _ => 46 :: rest end)
          ++ [101; 43] ++ decimal (n - 1)
    end.

(** [String(n)] for a non-negative integer, as a template literal
    interpolates it. Up to 2^53 every integer is a Number and is printed
    as its decimal expansion. Above, the integer a response carries is
    first the nearest Number, which is printed with the fewest digits
    that identify it: [2^64] as [18446744073709552000], [10^21] as
    [1e+21], and [Infinity] from [2^1024 - 2^970] on. *)
Definition numberToString (n : N) : jsstring :=
  if n <=? 2 ^ 53 then decimal n
  else
    let x := toDouble n in
    if 2 ^ 1024 <=? x then lit "Infinity" else large x.

(** What a numeral denotes, read from the left. *)
Definition numeralValue (s : jsstring) : N :=
  fold_left (fun v u => 10 * v + (u - 48)) s 0.

(** [s] is the decimal numeral of [n]: digits only, at least one, no
    leading zero except for zero itself, denoting [n]. *)
Definition decimalNumeral (n : N) (s : jsstring) : Prop :=
  s <> [] /\
  Forall (fun u => 48 <= u <= 57) s /\
  (forall rest, s = 48 :: rest -> rest = []) /\
  numeralValue s = n.

(** One code unit of the name against one ASCII character [c] of the
    suffix: the lowered unit matches [c] when the unit is [c] or its
    capital. *)
Definition matchesLowered (c u : N) : bool :=
  (u =? c) || ((65 <=? u) && (u <=? 90) && (u + 32 =? c)).

(** An [Error] object, of which the code only reads [message]. *)
Record Error : Type := mkError { message : jsstring }.

(** A settled promise. *)
Inductive Outcome (X : Type) : Type :=
| Fulfilled : X -> Outcome X
| Rejected : Error -> Outcome X.
Arguments Fulfilled {X} _.
Arguments Rejected {X} _.

(** A value that [response.json()] yields. Of a number the code can only
    observe whether it is zero and the text that [String] gives of it,
    and a number is kept as these two. The members of an object are in
    the order of the text. *)
#[local] Unset Elimination Schemes.
Inductive Json : Type :=
| JNull
| JBool (b : bool)
| JNumber (isZero : bool) (text : jsstring)
| JString (s : jsstring)
| JArray (items : list Json)
| JObject (members : list (jsstring * Json)).
#[local] Set Elimination Schemes.

(** Truthiness: [null], [false], [0] and the empty string are falsy;
    every array and every object is truthy, also the empty ones. *)
Definition isTruthy (v : Json) : bool :=
  match v with
  | JNull => false
  | JBool b => b
  | JNumber isZero _ => negb isZero
  | JString s => truthy s
  | JArray _ | JObject _ => true
  end.

(** [String(v)]: a string is itself; an array is its items joined by
    commas, a [null] item giving nothing; an object without a [toString]
    of its own is [[object Object]]. *)
Fixpoint toString (v : Json) : jsstring :=
  match v with
  | JNull => lit "null"
  | JBool true => lit "true"
  | JBool false => lit "false"
  | JNumber _ text => text
  | JString s => s
  | JArray items =>
      (fix join (l : list Json) : jsstring :=
         match l with
         | [] => []
         | x :: rest =>
             match x with JNull => [] | _ => toString x end
               ++ match rest with [] => [] | _ :: _ => 44 :: join rest end
         end) items
  | JObject _ => lit "[object Object]"
  end.

(** The member [key] of an object as [JSON.parse] leaves it: of members
    with the same key the last one counts. *)
Definition member (key : jsstring) (members : list (jsstring * Json))
  : option Json :=
  fold_left (fun found kv => if eqb (fst kv) key then Some (snd kv)
                             else found)
            members None.

(** [error.detail]: reading a property of [null] throws a [TypeError]
    (the message is V8's); an object has the member or not; a boolean, a
    number, a string and an array have no property of that name. [None]
    is [undefined]. *)
Definition detailOf (error : Json) : Outcome (option Json) :=
  match error with
  | JNull =>
      Rejected
        (mkError (lit "Cannot read properties of null (reading 'detail')"))
  | JObject members => Fulfilled (member (lit "detail") members)
  | JBool _ | JNumber _ _ | JString _ | JArray _ => Fulfilled None
  end.

(** [new Error(detail || fallback)]: the message is [String] of the
    detail when it is truthy, the fallback otherwise. *)
Definition newError (detail : option Json) (fallback : jsstring) : Error :=
  mkError (match detail with
           | Some v => if isTruthy v then toString v else fallback
           | None => fallback
           end).

End JS.

(* ================================================================== *)
(** * Event handlers as processes                                      *)
(* ================================================================== *)

(** A handler of a component is a tree of the effects it performs, in
    program order. Reading the component's state is not an effect: a
    handler is a closure over the state of the render that created it, so
    a handler is written as a function of that snapshot, and what it reads
    after an [await] is still the snapshot.

    Calling a setter does not change the state either: React queues the
    update and applies the queue, in order, when the handler returns or
    suspends. While a handler runs, the component's state is that of the
    render; what the setters called so far have asked for is carried along
    and becomes the state once the run ends. *)
Module Proc.
Import JS.

(** What the environment answers during one synchronous run. *)
Record Env : Type := mkEnv {
  now : N;                       (* Date.now() *)
  confirm : jsstring -> bool     (* window.confirm(message) *)
}.

Section Process.
(** [St]: state of the component (its [useState] cells); [C]: the
    asynchronous calls it awaits, [R c] the type of the value call [c]
    resolves to; [Out]: what it sends out (callback props, alerts, the
    console). *)
Variables (St C : Type) (R : C -> Type) (Out : Type).

Inductive proc : Type :=
| Return : proc
| Throw : Error -> proc
| SetState : (St -> St) -> proc -> proc
| DateNow : (N -> proc) -> proc
| Confirm : jsstring -> (bool -> proc) -> proc
| Await : forall c : C, (Outcome (R c) -> proc) -> proc
| SetInterval : proc -> N -> (nat -> proc) -> proc
| ClearInterval : nat -> proc -> proc
| SetTimeout : proc -> N -> proc -> proc
| Emit : Out -> proc -> proc.

(** [await c], then [k] with the value; a rejection is thrown. *)
Definition await (c : C) (k : R c -> proc) : proc :=
  Await c (fun o => match o with
                    | Fulfilled x => k x
                    | Rejected e => Throw e
                    end).

(** [p; q]. *)
Fixpoint andThen (p q : proc) : proc :=
  match p with
  | Return => q
  | Throw e => Throw e
  | SetState f k => SetState f (andThen k q)
  | DateNow k => DateNow (fun t => andThen (k t) q)
  | Confirm m k => Confirm m (fun b => andThen (k b) q)
  | Await c k => Await c (fun o => andThen (k o) q)
  | SetInterval cb ms k => SetInterval cb ms (fun i => andThen (k i) q)
  | ClearInterval i k => ClearInterval i (andThen k q)
  | SetTimeout cb ms k => SetTimeout cb ms (andThen k q)
  | Emit o k => Emit o (andThen k q)
  end.

(** [try { p } catch (e) { h e }]. Timer callbacks run outside the
    [try]. *)
Fixpoint tryCatch (p : proc) (h : Error -> proc) : proc :=
  match p with
  | Return => Return
  | Throw e => h e
  | SetState f k => SetState f (tryCatch k h)
  | DateNow k => DateNow (fun t => tryCatch (k t) h)
  | Confirm m k => Confirm m (fun b => tryCatch (k b) h)
  | Await c k => Await c (fun o => tryCatch (k o) h)
  | SetInterval cb ms k => SetInterval cb ms (fun i => tryCatch (k i) h)
  | ClearInterval i k => ClearInterval i (tryCatch k h)
  | SetTimeout cb ms k => SetTimeout cb ms (tryCatch k h)
  | Emit o k => Emit o (tryCatch k h)
  end.

(** [try { p } finally { f }]. *)
Fixpoint tryFinally (p : proc) (f : proc) : proc :=
  match p with
  | Return => f
  | Throw e => andThen f (Throw e)
  | SetState g k => SetState g (tryFinally k f)
  | DateNow k => DateNow (fun t => tryFinally (k t) f)
  | Confirm m k => Confirm m (fun b => tryFinally (k b) f)
  | Await c k => Await c (fun o => tryFinally (k o) f)
  | SetInterval cb ms k => SetInterval cb ms (fun i => tryFinally (k i) f)
  | ClearInterval i k => ClearInterval i (tryFinally k f)
  | SetTimeout cb ms k => SetTimeout cb ms (tryFinally k f)
  | Emit o k => Emit o (tryFinally k f)
  end.

(** A suspended [await]: the call and what resumes on its outcome. *)
Record Pending : Type := mkPending {
  call : C;
  resume : Outcome (R call) -> proc
}.

(** A call that was made: [what] was called, while the state of the
    component was [rendered], after setters had asked for [requested]. *)
Record Called : Type := mkCalled {
  what : C;
  rendered : St;
  requested : St
}.

(** The component between two events. *)
Record World : Type := mkWorld {
  state : St;
  nextTimer : nat;
  intervals : list (nat * proc);   (* active setInterval callbacks *)
  timeouts : list (nat * proc);    (* setTimeout callbacks not yet run *)
  awaiting : list Pending;         (* handlers suspended at an await *)
  calls : list Called;             (* calls made, in order *)
  outputs : list Out;                (* what was sent out, in order *)
  uncaught : list Error            (* exceptions no handler caught *)
}.

(** A component at rest in state [s]. *)
Definition idle (s : St) : World :=
  mkWorld s 0 [] [] [] [] [] [].

Definition withState (w : World) (s : St) : World :=
  mkWorld s (nextTimer w) (intervals w) (timeouts w) (awaiting w)
          (calls w) (outputs w) (uncaught w).

Definition dropTimer (i : nat) (l : list (nat * proc)) :=
  filter (fun e => negb (Nat.eqb (fst e) i)) l.

Fixpoint findTimer (i : nat) (l : list (nat * proc)) : option proc :=
  match l with
  | [] => None
  | (j, cb) :: l' => if Nat.eqb j i then Some cb else findTimer i l'
  end.

Fixpoint removeNth {A} (i : nat) (l : list A) : list A :=
  match i, l with
  | _, [] => []
  | 0%nat, _ :: l' => l'
  | S i', x :: l' => x :: removeNth i' l'
  end.

(** Go through [p] until it returns, throws, or suspends at an [await].
    [w] holds the state of the render throughout; [next] is what the
    setters called so far ask for, and is the state of the world that
    results. *)
Fixpoint exec (env : Env) (p : proc) (w : World) (next : St) : World :=
  match p with
  | Return => withState w next
  | Throw e =>
      mkWorld next (nextTimer w) (intervals w) (timeouts w)
              (awaiting w) (calls w) (outputs w) (uncaught w ++ [e])
  | SetState f k => exec env k w (f next)
  | DateNow k => exec env (k (now env)) w next
  | Confirm m k => exec env (k (confirm env m)) w next
  | Await c k =>
      mkWorld next (nextTimer w) (intervals w) (timeouts w)
              (awaiting w ++ [mkPending c k])
              (calls w ++ [mkCalled c (state w) next])
              (outputs w) (uncaught w)
  | SetInterval cb _ k =>
      let i := nextTimer w in
      exec env (k i)
           (mkWorld (state w) (S i) (intervals w ++ [(i, cb)])
                    (timeouts w) (awaiting w) (calls w) (outputs w)
                    (uncaught w))
           next
  | ClearInterval i k =>
      exec env k
           (mkWorld (state w) (nextTimer w) (dropTimer i (intervals w))
                    (timeouts w) (awaiting w) (calls w) (outputs w)
                    (uncaught w))
           next
  | SetTimeout cb _ k =>
      let i := nextTimer w in
      exec env k
           (mkWorld (state w) (S i) (intervals w)
                    (timeouts w ++ [(i, cb)]) (awaiting w) (calls w)
                    (outputs w) (uncaught w))
           next
  | Emit o k =>
      exec env k
           (mkWorld (state w) (nextTimer w) (intervals w) (timeouts w)
                    (awaiting w) (calls w) (outputs w ++ [o]) (uncaught w))
           next
  end.

(** Run [p] in [w], from the state of [w] with no update queued. *)
Definition run (env : Env) (p : proc) (w : World) : World :=
  exec env p w (state w).

(** What can happen to a component. *)
Inductive Event : Type :=
| Invoke : (St -> proc) -> Event
    (* a user event runs a handler of the current render *)
| Settle : nat -> (forall c : C, Outcome (R c)) -> Event
    (* the i-th pending call settles *)
| Tick : nat -> Event        (* an interval fires *)
| Expire : nat -> Event.     (* a timeout fires *)

Definition fire (env : Env) (ev : Event) (w : World) : World :=
  match ev with
  | Invoke h => run env (h (state w)) w
  | Settle i reply =>
      match nth_error (awaiting w) i with
      | Some pd =>
          run env (resume pd (reply (call pd)))
              (mkWorld (state w) (nextTimer w) (intervals w) (timeouts w)
                       (removeNth i (awaiting w)) (calls w) (outputs w)
                       (uncaught w))
      | None => w
      end
  | Tick i =>
      match findTimer i (intervals w) with
      | Some cb => run env cb w
      | None => w
      end
  | Expire i =>
      match findTimer i (timeouts w) with
      | Some cb =>
          run env cb
              (mkWorld (state w) (nextTimer w) (intervals w)
                       (dropTimer i (timeouts w)) (awaiting w) (calls w)
                       (outputs w) (uncaught w))
      | None => w
      end
  end.

(** A sequence of events, each with the environment's answers. *)
Fixpoint fireAll (evs : list (Env * Event)) (w : World) : World :=
  match evs with
  | [] => w
  | (env, ev) :: evs' => fireAll evs' (fire env ev w)
  end.

End Process.

Arguments Return {St C R Out}.
Arguments Throw {St C R Out} _.
Arguments SetState {St C R Out} _ _.
Arguments DateNow {St C R Out} _.
Arguments Confirm {St C R Out} _ _.
Arguments Await {St C R Out} _ _.
Arguments SetInterval {St C R Out} _ _ _.
Arguments ClearInterval {St C R Out} _ _.
Arguments SetTimeout {St C R Out} _ _ _.
Arguments Emit {St C R Out} _ _.
Arguments Invoke {St C R Out} _.
Arguments Settle {St C R Out} _ _.
Arguments Tick {St C R Out} _.
Arguments Expire {St C R Out} _.
Arguments idle {St C R Out} _.
Arguments await {St C R Out} _ _.
Arguments andThen {St C R Out} _ _.
Arguments tryCatch {St C R Out} _ _.
Arguments tryFinally {St C R Out} _ _.
Arguments exec {St C R Out} _ _ _ _.
Arguments run {St C R Out} _ _ _ /.
Arguments mkCalled {St C} _ _ _.
Arguments what {St C} _.
Arguments rendered {St C} _.
Arguments requested {St C} _.
Arguments fire {St C R Out} _ _ _.
Arguments fireAll {St C R Out} _ _.
Arguments state {St C R Out} _.
Arguments nextTimer {St C R Out} _.
Arguments intervals {St C R Out} _.
Arguments timeouts {St C R Out} _.
Arguments awaiting {St C R Out} _.
Arguments calls {St C R Out} _.
Arguments outputs {St C R Out} _.
Arguments uncaught {St C R Out} _.
Arguments mkWorld {St C R Out} _ _ _ _ _ _ _ _.
Arguments mkPending {St C R Out} _ _.
Arguments call {St C R Out} _.
Arguments resume {St C R Out} _ _.
Arguments withState {St C R Out} _ _.

End Proc.

(* ================================================================== *)
(** * services/api.js                                                  *)
(* ================================================================== *)

Module Api.
Import JS.

(** A document as the service sends it. *)
Record Document : Type := mkDocument {
  id : jsstring;
  filename : jsstring;
  page_count : N;
  chunk_count : N;
  upload_time : jsstring
}.

(** What the code reads of a [File]. *)
Record File : Type := mkFile { name : jsstring; size : N }.

(** Bodies of the service's [ok] answers, as far as the client reads
    them. The body of an answer that is not [ok] is any JSON value. *)
Record UploadResponse : Type := mkUploadResponse { document : Document }.
Record QueryResponse : Type := mkQueryResponse {
  answer : jsstring;
  sources : field (list jsstring)
}.
Record ListResponse : Type := mkListResponse {
  documents : field (list Document)
}.
Inductive DeleteResponse : Type := Deleted.

Inductive Method : Type := GET | POST | DELETE.

Inductive Body : Type :=
| NoBody
| FormData (file : File)
| JsonBody (document_id question : jsstring).

Record Request : Type := mkRequest {
  url : jsstring;
  method : Method;
  body : Body
}.

(** A [Response] of [fetch], with what [response.json()] makes of its
    body: a [SyntaxError] when the body is not JSON, otherwise the parsed
    value. A response that is not [ok] carries any JSON value, one that is
    [ok] the payload [P] of the operation. *)
Inductive Response (P : Type) : Type :=
| Success (json : Outcome P)
| Failure (json : Outcome Json).
Arguments Success {P} _.
Arguments Failure {P} _.

Definition ok {P} (response : Response P) : bool :=
  match response with
  | Success _ => true
  | Failure _ => false
  end.

(** An [async] function over the network: it returns, throws, or calls
    [fetch] and goes on with the outcome. *)
Inductive async (P A : Type) : Type :=
| Ret : A -> async P A
| Raise : Error -> async P A
| Fetch : Request -> (Outcome (Response P) -> async P A) -> async P A.
Arguments Ret {P A} _.
Arguments Raise {P A} _.
Arguments Fetch {P A} _ _.

(** [await promise]: the value, or the rejection thrown. *)
Definition awaited {P A} (o : Outcome A) : async P A :=
  match o with
  | Fulfilled a => Ret a
  | Rejected e => Raise e
  end.

Fixpoint bind {P A B} (p : async P A) (k : A -> async P B) : async P B :=
  match p with
  | Ret a => k a
  | Raise e => Raise e
  | Fetch req c => Fetch req (fun o => bind (c o) k)
  end.

Notation "x <- p ;; q" := (bind p (fun x => q))
  (at level 61, p at next level, right associativity).

Definition fetch {P} (u : jsstring) (m : Method) (b : Body)
  : async P (Response P) :=
  Fetch (mkRequest u m b) awaited.

(** The network: what the [n]-th request of an invocation meets. *)
Definition Network (P : Type) : Type :=
  nat -> Request -> Outcome (Response P).

(** Run an [async] function; the second component lists the requests it
    sent, in order. *)
Fixpoint perform {P A} (net : Network P) (p : async P A)
         (sent : list Request) : Outcome A * list Request :=
  match p with
  | Ret a => (Fulfilled a, sent)
  | Raise e => (Rejected e, sent)
  | Fetch req k =>
      perform net (k (net (List.length sent) req)) (sent ++ [req])
  end.

Definition API_BASE_URL : jsstring := lit "http://localhost:8000".

Definition uploadDocument (file : File)
  : async UploadResponse UploadResponse :=
  response <- fetch (API_BASE_URL ++ lit "/upload") POST (FormData file) ;;
  match response with
  | Failure json =>                                   (* !response.ok *)
      error <- awaited json ;;
      detail <- awaited (detailOf error) ;;
      Raise (newError detail (lit "Upload failed"))
  | Success json => awaited json
  end.

Definition queryDocument (documentId question : jsstring)
  : async QueryResponse QueryResponse :=
  response <- fetch (API_BASE_URL ++ lit "/query") POST
                    (JsonBody documentId question) ;;
  match response with
  | Failure json =>                                   (* !response.ok *)
      error <- awaited json ;;
      detail <- awaited (detailOf error) ;;
      Raise (newError detail (lit "Query failed"))
  | Success json => awaited json
  end.

Definition listDocuments : async ListResponse ListResponse :=
  response <- fetch (API_BASE_URL ++ lit "/documents") GET NoBody ;;
  match response with
  | Failure json =>                                   (* !response.ok *)
      error <- awaited json ;;
      detail <- awaited (detailOf error) ;;
      Raise (newError detail (lit "Failed to fetch documents"))
  | Success json => awaited json
  end.

Definition deleteDocument (documentId : jsstring)
  : async DeleteResponse DeleteResponse :=
  response <- fetch (API_BASE_URL ++ lit "/documents/" ++ documentId)
                    DELETE NoBody ;;
  match response with
  | Failure json =>                                   (* !response.ok *)
      error <- awaited json ;;
      detail <- awaited (detailOf error) ;;
      Raise (newError detail (lit "Delete failed"))
  | Success json => awaited json
  end.

(** The four operations under one name, for statements about all of
    them. *)
Inductive Operation : Type :=
| Upload (file : File)
| Query (documentId question : jsstring)
| List
| Delete (documentId : jsstring).

Definition Payload (op : Operation) : Type :=
  match op with
  | Upload _ => UploadResponse
  | Query _ _ => QueryResponse
  | List => ListResponse
  | Delete _ => DeleteResponse
  end.

Definition invoke (op : Operation) : async (Payload op) (Payload op) :=
  match op with
  | Upload file => uploadDocument file
  | Query documentId question => queryDocument documentId question
  | List => listDocuments
  | Delete documentId => deleteDocument documentId
  end.

(** The message each operation falls back to. *)
Definition defaultMessage (op : Operation) : jsstring :=
  match op with
  | Upload _ => lit "Upload failed"
  | Query _ _ => lit "Query failed"
  | List => lit "Failed to fetch documents"
  | Delete _ => lit "Delete failed"
  end.

End Api.

(* ================================================================== *)
(** * components/DocumentList.jsx                                      *)
(* ================================================================== *)

(** The list has no state of its own: its handlers run in the component
    that renders it, through the callbacks it is given. *)
Module DocumentList.
Import JS Proc.

Section Component.
Variables (St C : Type) (R : C -> Type) (Out : Type).
(** [deleteDocument] of [services/api.js], as a call to await, and
    [window.alert]. *)
Variable deleteDocument : jsstring -> C.
Variable alert : jsstring -> Out.

Record Props : Type := mkProps {
  documents : list Api.Document;
  selectedDocument : option Api.Document;
  onSelect : Api.Document -> proc St C R Out;
  onDelete : option (jsstring -> proc St C R Out)
}.

(** [handleDelete]. Its [e.stopPropagation()] keeps the click on the
    delete button from reaching the card, which would select the
    document. *)
Definition handleDelete (props : Props) (doc : Api.Document)
  : proc St C R Out :=
  Confirm (lit "Are you sure you want to delete " ++ [34]
             ++ Api.filename doc ++ [34] ++ lit "?")
    (fun answer =>
       if negb answer then Return
       else
         tryCatch
           (await (deleteDocument (Api.id doc)) (fun _ =>
              match onDelete props with
              | Some f => f (Api.id doc)
              | None => Return
              end))
           (fun error =>
              Emit (alert (lit "Failed to delete: " ++ message error))
                   Return)).

(** One card per document, in order; the user acts on the [i]-th card
    of what is rendered. With no documents there is no card. *)
Definition clickCard (props : Props) (i : nat) : proc St C R Out :=
  match nth_error (documents props) i with
  | Some doc => onSelect props doc
  | None => Return
  end.

Definition clickDelete (props : Props) (i : nat) : proc St C R Out :=
  match nth_error (documents props) i with
  | Some doc => handleDelete props doc
  | None => Return
  end.

End Component.

Arguments mkProps {St C R Out} _ _ _ _.
Arguments documents {St C R Out} _.
Arguments selectedDocument {St C R Out} _.
Arguments onSelect {St C R Out} _ _.
Arguments onDelete {St C R Out} _.
Arguments handleDelete {St C R Out} _ _ _ _.
Arguments clickCard {St C R Out} _ _.
Arguments clickDelete {St C R Out} _ _ _ _.

End DocumentList.

(* ================================================================== *)
(** * App.jsx                                                          *)
(* ================================================================== *)

Module App.
Import JS Proc.

Record State : Type := mkState {
  documents : list Api.Document;
  selectedDocument : option Api.Document;
  showUpload : bool
}.

(** [useState([])], [useState(null)], [useState(false)]. *)
Definition initial : State := mkState [] None false.

Definition setDocuments (f : list Api.Document -> list Api.Document)
           (s : State) : State :=
  mkState (f (documents s)) (selectedDocument s) (showUpload s).

Definition setSelectedDocument (v : option Api.Document) (s : State)
  : State :=
  mkState (documents s) v (showUpload s).

Definition setShowUpload (v : bool) (s : State) : State :=
  mkState (documents s) (selectedDocument s) v.

Inductive Call : Type :=
| ListDocuments
| DeleteDocument (documentId : jsstring).

Definition Reply (c : Call) : Type :=
  match c with
  | ListDocuments => Api.ListResponse
  | DeleteDocument _ => Api.DeleteResponse
  end.

Inductive Output : Type :=
| ConsoleError (label : jsstring) (error : Error)
| Alert (text : jsstring).

Definition proc : Type := Proc.proc State Call Reply Output.
Definition World : Type := Proc.World State Call Reply Output.
Definition Event : Type := Proc.Event State Call Reply Output.

(** App.jsx, [loadDocuments]. *)
Definition loadDocuments : proc :=
  tryCatch
    (await ListDocuments (fun response =>
       SetState (setDocuments
                   (fun _ => or_array (Api.documents response) []))
                Return))
    (fun error =>
       Emit (ConsoleError (lit "Failed to load documents:") error) Return).

(** App.jsx, [handleUploadSuccess]. *)
Definition handleUploadSuccess (document : Api.Document) : proc :=
  SetState (setDocuments (fun prev => document :: prev))
  (SetState (setSelectedDocument (Some document))
  (SetState (setShowUpload false)
   Return)).

(** [selectedDocument?.id === docId] *)
Definition selectedIs (selected : option Api.Document) (docId : jsstring)
  : bool :=
  match selected with
  | Some d => JS.eqb (Api.id d) docId
  | None => false
  end.

(** App.jsx, [handleDeleteDocument]. [snap] is the state of the render
    whose closure this is: the filter is applied to the state at the time
    it runs, the comparison reads the [selectedDocument] the closure
    holds. *)
Definition handleDeleteDocument (snap : State) (docId : jsstring) : proc :=
  SetState (setDocuments
              (fun prev =>
                 filter (fun d => negb (JS.eqb (Api.id d) docId)) prev))
  (if selectedIs (selectedDocument snap) docId
   then SetState (setSelectedDocument None) Return
   else Return).

(** The props [App] renders [DocumentList] with: [onSelect] is
    [setSelectedDocument], [onDelete] is [handleDeleteDocument]. *)
Definition documentListProps (snap : State)
  : DocumentList.Props State Call Reply Output :=
  DocumentList.mkProps
    (documents snap)
    (selectedDocument snap)
    (fun doc => SetState (setSelectedDocument (Some doc)) Return)
    (Some (handleDeleteDocument snap)).

(** The user's actions on the rendered list. *)
Definition select (i : nat) : Event :=
  Invoke (fun snap => DocumentList.clickCard (documentListProps snap) i).

Definition delete (i : nat) : Event :=
  Invoke (fun snap =>
            DocumentList.clickDelete DeleteDocument Alert
                                     (documentListProps snap) i).

(** [onUploadSuccess] of the upload panel. *)
Definition uploaded (document : Api.Document) : Event :=
  Invoke (fun _ => handleUploadSuccess document).

(** The effect that runs once, on mount. *)
Definition mount : Event := Invoke (fun _ => loadDocuments).

(** [listDocuments] and [deleteDocument] of [services/api.js] behind the
    calls, on networks [netList] and [netDelete]. *)
Definition adapter (netList : Api.Network Api.ListResponse)
           (netDelete : Api.Network Api.DeleteResponse) (c : Call)
  : Outcome (Reply c) :=
  match c with
  | ListDocuments => fst (Api.perform netList Api.listDocuments [])
  | DeleteDocument documentId =>
      fst (Api.perform netDelete (Api.deleteDocument documentId) [])
  end.

(** [onDelete] of the current render, called with [docId]. *)
Definition removed (docId : jsstring) : Event :=
  Invoke (fun snap => handleDeleteDocument snap docId).

(** How many entries of a sequence carry [docId]. *)
Definition entriesWith (docId : jsstring) (l : list Api.Document) : nat :=
  List.length (filter (fun d => JS.eqb (Api.id d) docId) l).

(** The selection, when there is one, carries the id of a listed
    document. *)
Definition selectionListed (s : State) : Prop :=
  match selectedDocument s with
  | None => True
  | Some d => exists d', In d' (documents s) /\ Api.id d' = Api.id d
  end.

(** The operations of the user on the registry: an upload that
    succeeded, a delete that was acknowledged, a click on a listed
    document. *)
Inductive registryOp : Event -> Prop :=
| op_uploaded : forall document, registryOp (uploaded document)
| op_removed : forall docId, registryOp (removed docId)
| op_select : forall i, registryOp (select i).

End App.

(* ================================================================== *)
(** * components/FileUpload.jsx                                        *)
(* ================================================================== *)

Module FileUpload.
Import JS Proc.

Record State : Type := mkState {
  isDragging : bool;
  isUploading : bool;
  uploadProgress : N;
  error : option jsstring
}.

(** [useState(false)], [useState(false)], [useState(0)],
    [useState(null)]. *)
Definition initial : State := mkState false false 0 None.

Definition setIsDragging (v : bool) (s : State) : State :=
  mkState v (isUploading s) (uploadProgress s) (error s).

Definition setIsUploading (v : bool) (s : State) : State :=
  mkState (isDragging s) v (uploadProgress s) (error s).

Definition setUploadProgress (f : N -> N) (s : State) : State :=
  mkState (isDragging s) (isUploading s) (f (uploadProgress s)) (error s).

Definition setError (v : option jsstring) (s : State) : State :=
  mkState (isDragging s) (isUploading s) (uploadProgress s) v.

Inductive Call : Type := UploadDocument (file : Api.File).

Definition Reply (_ : Call) : Type := Api.UploadResponse.

Inductive Output : Type :=
| OnUploadSuccess (document : Api.Document)
| OpenFilePicker.

Record Props : Type := mkProps {
  onUploadSuccess : option (Api.Document -> Output)
}.

Definition proc : Type := Proc.proc State Call Reply Output.
Definition World : Type := Proc.World State Call Reply Output.
Definition Event : Type := Proc.Event State Call Reply Output.

(** What the handlers read of a drag or change event. *)
Record DragData : Type := mkDragData {
  items : field nat;                  (* dataTransfer.items, its length *)
  files : field (list Api.File)       (* dataTransfer.files / target.files *)
}.

Definition handleDrag : proc := Return.

Definition handleDragIn (e : DragData) : proc :=
  match items e with
  | Val n => if Nat.ltb 0 n then SetState (setIsDragging true) Return
             else Return
  | Undefined | Null => Return
  end.

Definition handleDragOut : proc :=
  SetState (setIsDragging false) Return.

(** [handleFile]. It reads nothing of the component's state. *)
Definition handleFile (props : Props) (file : Api.File) : proc :=
  (* Validate file type *)
  if negb (endsWith (toLowerCase (Api.name file)) (lit ".pdf")) then
    SetState (setError (Some (lit "Please upload a PDF file"))) Return
  (* Validate file size (50MB) *)
  else if 50 * 1024 * 1024 <? Api.size file then
    SetState (setError (Some (lit "File size must be less than 50MB")))
             Return
  else
    SetState (setError None)
    (SetState (setIsUploading true)
    (SetState (setUploadProgress (fun _ => 0))
    (* Simulate progress *)
    (SetInterval
       (SetState (setUploadProgress (fun prev => N.min (prev + 10) 90))
                 Return)
       200
       (fun progressInterval =>
    tryCatch
      (await (UploadDocument file) (fun result =>
         ClearInterval progressInterval
         (SetState (setUploadProgress (fun _ => 100))
         (SetTimeout
            (SetState (setIsUploading false)
            (SetState (setUploadProgress (fun _ => 0))
            (match onUploadSuccess props with
             | Some f => Emit (f (Api.document result)) Return
             | None => Return
             end)))
            500
            Return))))
      (fun err =>
         ClearInterval progressInterval
         (SetState (setIsUploading false)
         (SetState (setUploadProgress (fun _ => 0))
         (SetState (setError (Some (message err)))
          Return)))))))).

(** [uploadDocument] of [services/api.js] behind the call, on a network
    [net]. *)
Definition adapter (net : Api.Network Api.UploadResponse) (c : Call)
  : Outcome (Reply c) :=
  match c with
  | UploadDocument file => fst (Api.perform net (Api.uploadDocument file) [])
  end.

(** [files && files.length > 0], then [handleFile(files[0])]. *)
Definition firstFile (props : Props) (l : field (list Api.File)) : proc :=
  match l with
  | Val (file :: _) => handleFile props file
  | Val [] | Undefined | Null => Return
  end.

Definition handleDrop (props : Props) (e : DragData) : proc :=
  SetState (setIsDragging false) (firstFile props (files e)).

Definition handleFileInput (props : Props) (e : DragData) : proc :=
  firstFile props (files e).

(** [onClick] of the upload zone. *)
Definition handleClick (snap : State) : proc :=
  if negb (isUploading snap) then Emit OpenFilePicker Return else Return.

(** The phase of an upload attempt, as the component shows it: the
    progress bar while [isUploading], otherwise the drop zone, with the
    error box under it when [error] is set. *)
Inductive Phase : Type :=
| Idle
| Dragging
| Uploading (progress : N)
| Failed (reason : jsstring).

Definition phase (s : State) : Phase :=
  if isUploading s then Uploading (uploadProgress s)
  else match error s with
       | Some reason => Failed reason
       | None => if isDragging s then Dragging else Idle
       end.

(** The two messages of validation. *)
Definition validationError (reason : jsstring) : Prop :=
  reason = lit "Please upload a PDF file" \/
  reason = lit "File size must be less than 50MB".

(** A file name ends in the document extension, whatever the case of its
    letters: its last four code units are a dot, [p] or [P], [d] or [D],
    [f] or [F]. *)
Definition hasPdfExtension (name : jsstring) : Prop :=
  exists stem u1 u2 u3,
    name = stem ++ [46; u1; u2; u3] /\
    (u1 = 112 \/ u1 = 80) /\ (u2 = 100 \/ u2 = 68) /\
    (u3 = 102 \/ u3 = 70).

Definition MiB : N := 1024 * 1024.



End FileUpload.

(* ================================================================== *)
(** * components/ChatInterface.jsx                                     *)
(* ================================================================== *)

Module ChatInterface.
Import JS Proc.

Record Message : Type := mkMessage {
  id : N;
  content : jsstring;
  isUser : bool;
  sources : field (list jsstring)
}.

Record State : Type := mkState {
  messages : list Message;
  inputValue : jsstring;
  isLoading : bool
}.

(** [useState([])], [useState('')], [useState(false)]. *)
Definition initial : State := mkState [] [] false.

Definition setMessages (f : list Message -> list Message) (s : State)
  : State :=
  mkState (f (messages s)) (inputValue s) (isLoading s).

Definition setInputValue (v : jsstring) (s : State) : State :=
  mkState (messages s) v (isLoading s).

Definition setIsLoading (v : bool) (s : State) : State :=
  mkState (messages s) (inputValue s) v.

Record Props : Type := mkProps {
  selectedDocument : option Api.Document
}.

Inductive Call : Type := QueryDocument (documentId question : jsstring).

Definition Reply (_ : Call) : Type := Api.QueryResponse.

Definition proc : Type := Proc.proc State Call Reply Empty_set.
Definition World : Type := Proc.World State Call Reply Empty_set.
Definition Event : Type := Proc.Event State Call Reply Empty_set.

(** The text of the turn that opens a conversation. The page emoji
    U+1F4C4 is a surrogate pair. *)
Definition readyText (doc : Api.Document) : jsstring :=
  [55357; 56516] ++ lit " **" ++ Api.filename doc ++ lit "** is ready!"
    ++ [10; 10] ++ lit "I've processed "
    ++ numberToString (Api.page_count doc) ++ lit " pages into "
    ++ numberToString (Api.chunk_count doc)
    ++ lit " searchable chunks. Ask me anything about this document!".

(** The effect with dependency [selectedDocument]: reset messages when
    the document changes. *)
Definition resetMessages (props : Props) : proc :=
  match selectedDocument props with
  | Some doc =>
      DateNow (fun t =>
      SetState (setMessages
                  (fun _ => [mkMessage t (readyText doc) false (Val [])]))
               Return)
  | None => SetState (setMessages (fun _ => [])) Return
  end.

(** The cross mark U+274C and [" Error: "]. *)
Definition errorMarker : jsstring := [10060] ++ lit " Error: ".

(** [handleSubmit], after [e.preventDefault()]. [snap] is the state of
    the render whose closure this is. *)
Definition handleSubmit (props : Props) (snap : State) : proc :=
  if negb (truthy (trim (inputValue snap)))
     || match selectedDocument props with None => true | Some _ => false end
     || isLoading snap
  then Return
  else
    let question := trim (inputValue snap) in
    SetState (setInputValue [])
    (* Add user message *)
    (DateNow (fun t =>
     let userMessage := mkMessage t question true Undefined in
     SetState (setMessages (fun prev => prev ++ [userMessage]))
    (* Get AI response *)
    (SetState (setIsLoading true)
    (tryFinally
       (tryCatch
          (match selectedDocument props with
           | Some doc =>
               await (QueryDocument (Api.id doc) question) (fun response =>
               DateNow (fun t' =>
               let aiMessage :=
                 mkMessage (t' + 1) (Api.answer response) false
                           (Val (or_array (Api.sources response) []))
               in
               SetState (setMessages (fun prev => prev ++ [aiMessage]))
                        Return))
           | None =>
               (* selectedDocument.id on null *)
               Throw (mkError
                        (lit "Cannot read properties of null (reading 'id')"))
           end)
          (fun error =>
             DateNow (fun t' =>
             let errorMessage :=
               mkMessage (t' + 1) (errorMarker ++ message error) false
                         (Val [])
             in
             SetState (setMessages (fun prev => prev ++ [errorMessage]))
                      Return)))
       (SetState (setIsLoading false) Return))))).

(** [queryDocument] of [services/api.js] behind the call, on a network
    [net]. *)
Definition adapter (net : Api.Network Api.QueryResponse) (c : Call)
  : Outcome (Reply c) :=
  match c with
  | QueryDocument documentId question =>
      fst (Api.perform net (Api.queryDocument documentId question) [])
  end.

(** The form's submit event, on the current render. *)
Definition submit (props : Props) : Event := Invoke (handleSubmit props).

(** The effect after a render in which [selectedDocument] changed. *)
Definition selectionChanged (props : Props) : Event :=
  Invoke (fun _ => resetMessages props).

(** A string with nothing but white space in it, the empty one
    included. *)
Definition blank (s : jsstring) : Prop := Forall (fun u => isWhiteSpace u = true) s.

(** [text] mentions [word]. *)
Definition mentions (text word : jsstring) : Prop :=
  exists before after, text = before ++ word ++ after.

End ChatInterface.

(* ================================================================== *)
(** * components/MessageBubble.jsx and what the components render      *)
(* ================================================================== *)

Module MessageBubble.
Import JS.

(** What a bubble shows besides the text: the assistant's avatar, and the
    block of sources. *)
Record View : Type := mkView {
  avatar : bool;        (* !isUser *)
  text : jsstring;      (* message.content *)
  sourceBlock : list jsstring
    (* the sources listed; none when the block is not rendered *)
}.

(** [!isUser && message.sources && message.sources.length > 0] guards the
    block; inside it every source is listed, in order. *)
Definition render (message : ChatInterface.Message) (isUser : bool) : View :=
  mkView (negb isUser)
         (ChatInterface.content message)
         (if negb isUser
          then match ChatInterface.sources message with
               | Val (src :: rest) => src :: rest
               | Val [] | Undefined | Null => []
               end
          else []).

End MessageBubble.

Module Views.
Import JS Proc.

(** What [ChatInterface] renders: the placeholder when no document is
    selected; otherwise one bubble per message (each with
    [isUser={message.isUser}]), the loading indicator, the input
    ([disabled={isLoading}]) and the send button
    ([disabled={!inputValue.trim() || isLoading}]). *)
Inductive Chat : Type :=
| NoDocumentSelected
| Conversation (bubbles : list MessageBubble.View)
               (loadingIndicator inputDisabled sendDisabled : bool).

Definition chat (props : ChatInterface.Props) (snap : ChatInterface.State)
  : Chat :=
  match ChatInterface.selectedDocument props with
  | None => NoDocumentSelected
  | Some _ =>
      Conversation
        (map (fun message =>
                MessageBubble.render message (ChatInterface.isUser message))
             (ChatInterface.messages snap))
        (ChatInterface.isLoading snap)
        (ChatInterface.isLoading snap)
        (negb (truthy (trim (ChatInterface.inputValue snap)))
         || ChatInterface.isLoading snap)
  end.

(** What [DocumentList] renders: the empty notice when
    [documents.length === 0]; otherwise one card per document, marked
    selected when [selectedDocument?.id === doc.id]. *)
Inductive Cards : Type :=
| NoDocuments
| Listed (cards : list (Api.Document * bool)).

Definition cards {St C R Out} (props : DocumentList.Props St C R Out)
  : Cards :=
  if Nat.eqb (List.length (DocumentList.documents props)) 0 then NoDocuments
  else
    Listed (map (fun doc =>
                   (doc, App.selectedIs (DocumentList.selectedDocument props)
                                        (Api.id doc)))
                (DocumentList.documents props)).

(** The cards marked selected. *)
Definition marked (v : Cards) : list Api.Document :=
  match v with
  | NoDocuments => []
  | Listed l => map fst (filter snd l)
  end.

(** What [FileUpload] shows and lets through: the progress bar with the
    percentage while [isUploading], during which the zone takes no pointer
    events and the input is disabled; the error box when [error] is
    truthy, that is set and not the empty string. *)
Record Upload : Type := mkUpload {
  progressBar : option N;
  zoneDisabled : bool;
  dropPrompt : bool;                (* 'Drop your PDF here' *)
  errorBox : option jsstring
}.

Definition upload (snap : FileUpload.State) : Upload :=
  mkUpload (if FileUpload.isUploading snap
            then Some (FileUpload.uploadProgress snap) else None)
           (FileUpload.isUploading snap)
           (negb (FileUpload.isUploading snap) && FileUpload.isDragging snap)
           (match FileUpload.error snap with
            | Some (u :: reason) => Some (u :: reason)
            | Some [] | None => None
            end).

End Views.

(** The events of the upload panel and of the header, on the current
    render. *)
Module Actions.
Import JS Proc.

Definition dragEnter (e : FileUpload.DragData) : FileUpload.Event :=
  Invoke (fun _ => FileUpload.handleDragIn e).

Definition dragLeave : FileUpload.Event :=
  Invoke (fun _ => FileUpload.handleDragOut).

Definition dragOver : FileUpload.Event :=
  Invoke (fun _ => FileUpload.handleDrag).

Definition drop (props : FileUpload.Props) (e : FileUpload.DragData)
  : FileUpload.Event :=
  Invoke (fun _ => FileUpload.handleDrop props e).

Definition choose (props : FileUpload.Props) (e : FileUpload.DragData)
  : FileUpload.Event :=
  Invoke (fun _ => FileUpload.handleFileInput props e).

(** The header's upload button: [setShowUpload(!showUpload)]. *)
Definition toggleUpload : App.Event :=
  Invoke (fun snap =>
            SetState (App.setShowUpload (negb (App.showUpload snap))) Return).

(** Typing into the question input: [setInputValue(e.target.value)]. *)
Definition type (value : jsstring) : ChatInterface.Event :=
  Invoke (fun _ => SetState (ChatInterface.setInputValue value) Return).

End Actions.

(** Properties of states that the theorems speak of. *)
Module Invariants.
Import JS.

(** No two listed documents carry the same id. *)
Definition uniqueIds (s : App.State) : Prop :=
  NoDup (map Api.id (App.documents s)).

End Invariants.

(** How [App] wires its children: [ChatInterface] gets the selection as
    a prop, [FileUpload] gets [handleUploadSuccess] as [onUploadSuccess]. *)
Module Wires.
Import JS Proc.

Definition chatProps (snap : App.State) : ChatInterface.Props :=
  ChatInterface.mkProps (App.selectedDocument snap).

Definition fileUploadProps : FileUpload.Props :=
  FileUpload.mkProps (Some FileUpload.OnUploadSuccess).

(** What reaches [App] of what the upload panel sends out. *)
Definition deliver (o : FileUpload.Output) : list App.Event :=
  match o with
  | FileUpload.OnUploadSuccess document => [App.uploaded document]
  | FileUpload.OpenFilePicker => []
  end.

End Wires.

(* ================================================================== *)
(** * Inputs of the examples                                           *)
(* ================================================================== *)

Module Examples.
Import JS Proc.

Definition clock : Env := mkEnv 1704067200000 (fun _ => true).

(** A network on which every request meets [response]. *)
Definition always {P} (response : Api.Response P) : Api.Network P :=
  fun _ _ => Fulfilled response.

(** A network that cannot be reached: [fetch] rejects. *)
Definition offline {P} : Api.Network P :=
  fun _ _ => Rejected (mkError (lit "Failed to fetch")).

Definition report_v1 : Api.Document :=
  Api.mkDocument (lit "d1") (lit "report.pdf") 5 12
                 (lit "2024-01-01T00:00:00Z").

Definition report_v2 : Api.Document :=
  Api.mkDocument (lit "d1") (lit "report-final.pdf") 5 12
                 (lit "2024-01-02T00:00:00Z").

Definition notes : Api.Document :=
  Api.mkDocument (lit "d2") (lit "notes.pdf") 2 3
                 (lit "2024-01-03T00:00:00Z").

Definition reportFile : Api.File :=
  Api.mkFile (lit "Report.PDF") (10 * FileUpload.MiB).

Definition pictureFile : Api.File := Api.mkFile (lit "holiday.png") 2048.

Definition noProps : FileUpload.Props := FileUpload.mkProps None.

Definition onReport : ChatInterface.Props :=
  ChatInterface.mkProps (Some report_v1).

(** The session on [report_v1] after the user typed a question. *)
Definition typed : ChatInterface.World :=
  idle (ChatInterface.mkState
          [ChatInterface.mkMessage 1 (ChatInterface.readyText report_v1)
                                   false (Val [])]
          (lit "  What is the summary? ") false).

(** The service is down: every call of the registry is rejected. *)
Definition unreachable : forall c, Outcome (App.Reply c) :=
  App.adapter offline offline.


(** The service acknowledges every delete. *)
Definition acknowledging : forall c, Outcome (App.Reply c) :=
  App.adapter (always (Api.Success (Fulfilled (Api.mkListResponse Undefined))))
              (always (Api.Success (Fulfilled Api.Deleted))).


Definition onNotes : ChatInterface.Props :=
  ChatInterface.mkProps (Some notes).

(** The service answers every query with the same text and one source. *)
Definition summarizing : forall c, Outcome (ChatInterface.Reply c) :=
  fun _ => Fulfilled (Api.mkQueryResponse (lit "It is a summary.")
                                           (Val [lit "p.2: ..."])).

(** The user answers no to every question. *)
Definition declining : Env := mkEnv 0 (fun _ => false).


Definition hugePicture : Api.File :=
  Api.mkFile (lit "scan.png") (200 * FileUpload.MiB).

Definition hugeReport : Api.File :=
  Api.mkFile (lit "big.pdf") (200 * FileUpload.MiB).

End Examples.

(* ================================================================== *)
(** * Facts about the runtime                                          *)
(* ================================================================== *)

Module JSFacts.
Import JS.

Lemma trimStart_nil (s : jsstring) :
  trimStart s = [] <-> Forall (fun u => isWhiteSpace u = true) s.
Proof.
  induction s as [|u s IH]; simpl.
  - split; auto.
  - destruct (isWhiteSpace u) eqn:E.
    + rewrite IH. split; intro H.
      * constructor; assumption.
      * inversion H; assumption.
    + split; intro H; [discriminate|].
      inversion H; congruence.
Qed.

Lemma trimStart_head (s t : jsstring) (u : N) :
  trimStart s = u :: t -> isWhiteSpace u = false.
Proof.
  induction s as [|v s IH]; simpl; [discriminate|].
  destruct (isWhiteSpace v) eqn:E; auto.
  intro H; inversion H; subst; assumption.
Qed.

Lemma trimStart_blank (s : jsstring) :
  Forall (fun u => isWhiteSpace u = true) (trimStart s) -> trimStart s = [].
Proof.
  destruct (trimStart s) as [|u t] eqn:E; auto.
  intro H. inversion H; subst.
  apply trimStart_head in E. congruence.
Qed.

Lemma rev_nil_inv {A} (l : list A) : rev l = [] -> l = [].
Proof.
  intro H. rewrite <- (rev_involutive l), H. reflexivity.
Qed.

(** [trim] leaves nothing exactly of the strings made of white space. *)
Lemma trim_nil (s : jsstring) :
  trim s = [] <-> Forall (fun u => isWhiteSpace u = true) s.
Proof.
  unfold trim, trimEnd. split; intro H.
  - apply rev_nil_inv in H. apply trimStart_nil in H.
    apply Forall_rev in H. rewrite rev_involutive in H.
    apply trimStart_nil. apply trimStart_blank; assumption.
  - apply trimStart_nil in H. rewrite H. reflexivity.
Qed.

Lemma truthy_trim (s : jsstring) :
  truthy (trim s) = false <-> Forall (fun u => isWhiteSpace u = true) s.
Proof.
  rewrite <- trim_nil. destruct (trim s); simpl; split; congruence.
Qed.

Lemma rev_flat_map {A B} (f : A -> list B) (l : list A) :
  rev (flat_map f l) = flat_map (fun a => rev (f a)) (rev l).
Proof.
  induction l as [|a l IH]; simpl; auto.
  rewrite rev_app_distr, IH, flat_map_app. simpl.
  rewrite app_nil_r. reflexivity.
Qed.

Ltac split_tests :=
  repeat match goal with
  | |- context [?a <=? ?b] => destruct (N.leb_spec a b); simpl
  | |- context [?a =? ?b] => destruct (N.eqb_spec a b); simpl
  end.

Lemma startsWith_lowered (c u : N) (rest p : jsstring) :
  c < 128 -> c < 65 \/ 90 < c -> c <> 107 ->
  startsWith (rev (lowerUnit u) ++ rest) (c :: p) =
  matchesLowered c u && startsWith rest p.
Proof.
  intros Hc Hcap Hk. unfold lowerUnit, matchesLowered.
  split_tests; try lia; try reflexivity.
Qed.

Lemma lowered_suffix (r : jsstring) :
  startsWith (flat_map (fun a => rev (lowerUnit a)) r) [102; 100; 112; 46] =
  match r with
  | a :: b :: c :: d :: _ =>
      matchesLowered 102 a && (matchesLowered 100 b &&
      (matchesLowered 112 c && matchesLowered 46 d))
  | _ => false
  end.
Proof.
  assert (Hnil : forall s, startsWith s [] = true) by (intros []; reflexivity).
  assert (Hcons : forall c p, startsWith [] (c :: p) = false) by reflexivity.
  destruct r as [|a [|b [|c [|d r]]]]; cbn [flat_map];
    repeat (rewrite startsWith_lowered by lia);
    rewrite ?Hnil, ?Hcons, ?andb_false_r, ?andb_true_r; reflexivity.
Qed.

Lemma matchesLowered_letter (c u : N) :
  97 <= c <= 122 ->
  matchesLowered c u = true <-> u = c \/ u = c - 32.
Proof.
  intro Hc. unfold matchesLowered.
  split_tests; split; intros ?; try discriminate; try reflexivity; lia.
Qed.

Lemma matchesLowered_dot (u : N) : matchesLowered 46 u = true <-> u = 46.
Proof.
  unfold matchesLowered.
  split_tests; split; intros ?; try discriminate; try reflexivity; lia.
Qed.

(** The test of [handleFile] on the name is the case-insensitive test of
    the extension. *)
Lemma endsWith_pdf (name : jsstring) :
  endsWith (toLowerCase name) (lit ".pdf") = true <->
  FileUpload.hasPdfExtension name.
Proof.
  unfold endsWith, toLowerCase, FileUpload.hasPdfExtension.
  rewrite rev_flat_map.
  change (rev (lit ".pdf")) with [102; 100; 112; 46].
  rewrite lowered_suffix.
  split.
  - destruct (rev name) as [|a [|b [|c [|d r]]]] eqn:E; try discriminate.
    intro H.
    apply andb_prop in H as [H3 H]. apply andb_prop in H as [H2 H].
    apply andb_prop in H as [H1 H0].
    apply matchesLowered_letter in H3; [|lia].
    apply matchesLowered_letter in H2; [|lia].
    apply matchesLowered_letter in H1; [|lia].
    apply matchesLowered_dot in H0. subst d.
    exists (rev r), c, b, a.
    split; [|simpl in *; tauto].
    rewrite <- (rev_involutive name), E. simpl.
    repeat rewrite <- app_assoc. reflexivity.
  - intros (stem & u1 & u2 & u3 & -> & H1 & H2 & H3).
    rewrite rev_app_distr. cbn [rev app].
    apply andb_true_intro; split; [|apply andb_true_intro; split;
                                     [|apply andb_true_intro; split]].
    + apply matchesLowered_letter; [lia | simpl; tauto].
    + apply matchesLowered_letter; [lia | simpl; tauto].
    + apply matchesLowered_letter; [lia | simpl; tauto].
    + apply matchesLowered_dot. reflexivity.
Qed.

End JSFacts.

(* ================================================================== *)
(** * Facts about the printing of numbers                              *)
(* ================================================================== *)

Module NumberFacts.
Import JS.

Lemma digitsFrom_value (fuel : nat) (n : N) :
  n < 2 ^ N.of_nat fuel ->
  fold_right (fun u v => 10 * v + (u - 48)) 0 (digitsFrom fuel n) = n.
Proof.
  revert n. induction fuel as [|fuel IH]; intros n Hn.
  - simpl in *. lia.
  - cbn [digitsFrom fold_right].
    rewrite Nat2N.inj_succ, N.pow_succ_r' in Hn.
    destruct (N.ltb_spec n 10) as [Hlt|Hge]; cbn [fold_right].
    + rewrite (N.mod_small n 10) by lia. lia.
    + rewrite IH.
      * pose proof (N.Div0.div_mod n 10) as H. clear IH Hn.
        set (q := n / 10) in *. set (r := n mod 10) in *.
        clearbody q r. lia.
      * apply N.Div0.div_lt_upper_bound. lia.
Qed.

Lemma digitsFrom_digits (fuel : nat) (n : N) :
  Forall (fun u => 48 <= u <= 57) (digitsFrom fuel n).
Proof.
  revert n. induction fuel as [|fuel IH]; intro n; [constructor|].
  cbn [digitsFrom]. constructor.
  - assert (H : n mod 10 < 10) by (apply N.mod_upper_bound; discriminate).
    set (r := n mod 10) in *. clearbody r. lia.
  - destruct (n <? 10); [constructor | apply IH].
Qed.

Lemma digitsFrom_last (fuel : nat) (n : N) :
  0 < n -> n < 2 ^ N.of_nat fuel ->
  exists l d, digitsFrom fuel n = l ++ [d] /\ d <> 48.
Proof.
  revert n. induction fuel as [|fuel IH]; intros n Hpos Hn.
  - simpl in Hn. lia.
  - cbn [digitsFrom].
    rewrite Nat2N.inj_succ, N.pow_succ_r' in Hn.
    destruct (N.ltb_spec n 10) as [Hlt|Hge].
    + exists [], (48 + n mod 10). split; [reflexivity|].
      rewrite (N.mod_small n 10) by lia. lia.
    + destruct (IH (n / 10)) as (l & d & Hl & Hd).
      * apply N.div_str_pos. lia.
      * apply N.Div0.div_lt_upper_bound. lia.
      * exists ((48 + n mod 10) :: l), d. rewrite Hl. split; auto.
Qed.

Lemma enough_fuel (n : N) : n < 2 ^ N.of_nat (S (N.to_nat (N.log2 n))).
Proof.
  rewrite Nat2N.inj_succ, N2Nat.id.
  destruct (N.eq_dec n 0) as [->|Hn]; [reflexivity|].
  apply N.log2_spec. lia.
Qed.

(** [decimal n] is the decimal numeral of [n]. *)
Lemma decimal_numeral (n : N) : decimalNumeral n (decimal n).
Proof.
  unfold decimalNumeral, decimal.
  set (fuel := S (N.to_nat (N.log2 n))).
  assert (Hfuel : n < 2 ^ N.of_nat fuel) by apply enough_fuel.
  split; [|split; [|split]].
  - unfold fuel. cbn [digitsFrom]. intro H.
    apply (f_equal (@rev N)) in H. rewrite rev_involutive in H.
    discriminate H.
  - apply Forall_rev, digitsFrom_digits.
  - intros rest Hs.
    destruct (N.eq_dec n 0) as [->|Hn].
    + unfold fuel in Hs. simpl in Hs. inversion Hs. reflexivity.
    + destruct (digitsFrom_last fuel n) as (l & d & Hl & Hd); [lia|exact Hfuel|].
      rewrite Hl, rev_app_distr in Hs. simpl in Hs.
      inversion Hs. congruence.
  - unfold numeralValue.
    rewrite <- (digitsFrom_value fuel n Hfuel) at 2.
    rewrite <- (rev_involutive (digitsFrom fuel n)) at 2.
    rewrite fold_left_rev_right. reflexivity.
Qed.

(** Up to 2^53 a count is printed as its decimal numeral. *)
Lemma numberToString_numeral (n : N) :
  n <= 2 ^ 53 -> decimalNumeral n (numberToString n).
Proof.
  intro Hn. unfold numberToString.
  apply N.leb_le in Hn. rewrite Hn. apply decimal_numeral.
Qed.

(** A count is never written as the empty text. *)
Lemma decimal_written (n : N) : decimal n <> [].
Proof. exact (proj1 (decimal_numeral n)). Qed.

Lemma numberToString_written (n : N) : numberToString n <> [].
Proof.
  unfold numberToString.
  destruct (n <=? 2 ^ 53); [apply decimal_written|].
  destruct (2 ^ 1024 <=? toDouble n); [discriminate|].
  unfold large.
  destruct (shortest _ 1 (toDouble n) _) as [s0 k].
  destruct (s0 =? 10 ^ k).
  - destruct (_ <=? 21).
    + intro H. apply app_eq_nil in H. exact (decimal_written _ (proj1 H)).
    + pose proof (decimal_written (10 ^ (k - 1))) as H.
      destruct (decimal (10 ^ (k - 1))); [congruence | discriminate].
  - destruct (_ <=? 21).
    + intro H. apply app_eq_nil in H. exact (decimal_written _ (proj1 H)).
    + pose proof (decimal_written s0) as H.
      destruct (decimal s0); [congruence | discriminate].
Qed.

(** From 10^21 on a count is written in exponent notation, and what is
    written is the nearest Number, not the integer. *)
Lemma large_counts_written :
  numberToString (10 ^ 21) = lit "1e+21" /\
  numberToString (2 ^ 53 + 1) = lit "9007199254740992" /\
  numberToString (10 ^ 21 - 1) = lit "1e+21" /\
  numberToString (123456789012345678901234567890)
  = lit "1.2345678901234568e+29".
Proof. repeat split; vm_compute; reflexivity. Qed.

End NumberFacts.
(* ================================================================== *)
(** * The transport functions                                          *)
(* ================================================================== *)

Module Transport.
Import JS Api Examples.

(** Each operation sends exactly one request, whatever comes back. *)
Lemma one_request (op : Operation) (net : Network (Payload op)) :
  List.length (snd (perform net (invoke op) [])) = 1%nat.
Proof.
  destruct op; cbn;
    match goal with
    | |- context [net 0%nat ?r] =>
        destruct (net 0%nat r) as [[[b|e]|[body|e]]|e]
    end; try reflexivity; destruct body; reflexivity.
Qed.

(** What an operation throws on a response that is not [ok] and whose
    body is JSON: the [TypeError] of reading [detail] of [null]; otherwise
    the error made of the detail or of the operation's default message. *)
Lemma failure_message (op : Operation) (net : Network (Payload op))
      (body : Json) :
  (forall req, net 0%nat req = Fulfilled (Failure (Fulfilled body))) ->
  fst (perform net (invoke op) []) =
  match detailOf body with
  | Fulfilled detail => Rejected (newError detail (defaultMessage op))
  | Rejected e => Rejected e
  end.
Proof.
  intro Hnet. destruct op; cbn; rewrite Hnet; cbn;
    destruct (detailOf body); reflexivity.
Qed.

(** A body that is not JSON: the parse error is what the caller gets. *)
Lemma unparsable_failure (op : Operation) (net : Network (Payload op))
      (e : Error) :
  (forall req, net 0%nat req = Fulfilled (Failure (Rejected e))) ->
  fst (perform net (invoke op) []) = Rejected e.
Proof.
  intro Hnet. destruct op; cbn; rewrite Hnet; reflexivity.
Qed.

(** C8, at the failing input: an upload meets a response that is not
    [ok] and whose body is not JSON (a plain [Internal Server Error]), so
    that [response.json()] rejects with the parser's [SyntaxError]. The
    error that [uploadDocument] throws is that [SyntaxError]; its message
    is not the operation's default message [Upload failed]. The same holds
    for the three other operations. *)
Theorem unparsable_body_not_default :
  let parseError :=
    mkError (lit "Unexpected token I in JSON at position 0") in
  let net (P : Type) : Network P := always (Failure (Rejected parseError)) in
  fst (perform (net _) (uploadDocument (mkFile (lit "a.pdf") 1)) [])
    = Rejected parseError /\
  fst (perform (net _) (queryDocument (lit "d1") (lit "Why?")) [])
    = Rejected parseError /\
  fst (perform (net _) listDocuments []) = Rejected parseError /\
  fst (perform (net _) (deleteDocument (lit "d1")) []) = Rejected parseError /\
  message parseError <> lit "Upload failed" /\
  message parseError <> lit "Query failed" /\
  message parseError <> lit "Failed to fetch documents" /\
  message parseError <> lit "Delete failed".
Proof.
  cbv zeta. repeat split; discriminate.
Qed.

End Transport.
(* ================================================================== *)
(** * Facts about processes                                            *)
(* ================================================================== *)

Module ProcFacts.
Import JS Proc.

Lemma eqb_eq (a b : jsstring) : JS.eqb a b = true <-> a = b.
Proof.
  revert b. induction a as [|x a IH]; intros [|y b]; simpl;
    try (split; [discriminate | congruence]); try tauto.
  rewrite andb_true_iff, N.eqb_eq, IH.
  split; [intros [-> ->]; reflexivity | intro H; inversion H; auto].
Qed.

Lemma eqb_refl (a : jsstring) : JS.eqb a a = true.
Proof. apply eqb_eq. reflexivity. Qed.

Lemma nth_error_last {A} (l : list A) (x : A) :
  nth_error (l ++ [x]) (List.length l) = Some x.
Proof. induction l; simpl; auto. Qed.

Lemma removeNth_last {A} (l : list A) (x : A) :
  removeNth (List.length l) (l ++ [x]) = l.
Proof. induction l; simpl; congruence. Qed.

Section Settling.
Variables (St C : Type) (R : C -> Type) (Out : Type).

(** A handler that returns at once leaves the world as it is. *)
Lemma run_Return (env : Env) (w : World St C R Out) : run env Return w = w.
Proof. destruct w; reflexivity. Qed.

Lemma exec_Return (env : Env) (w : World St C R Out) :
  exec env Return w (state w) = w.
Proof. destruct w; reflexivity. Qed.

(** Settling the call a handler has just suspended at resumes that
    handler, in the world the handler left. *)
Lemma settle_last (env env' : Env) (c : C)
      (k : Outcome (R c) -> proc St C R Out) (w : World St C R Out)
      (reply : forall c : C, Outcome (R c)) :
  fire env' (Settle (List.length (awaiting w)) reply) (run env (Await c k) w)
  = run env' (k (reply c))
        (mkWorld (state w) (nextTimer w) (intervals w) (timeouts w)
                 (awaiting w)
                 (calls w ++ [mkCalled c (state w) (state w)]) (outputs w)
                 (uncaught w)).
Proof.
  simpl. rewrite nth_error_last, removeNth_last. reflexivity.
Qed.


(** The same, for a handler that had queued updates before the call. *)
Lemma settle_exec (env env' : Env) (c : C)
      (k : Outcome (R c) -> proc St C R Out) (w : World St C R Out)
      (next : St) (reply : forall c : C, Outcome (R c)) :
  fire env' (Settle (List.length (awaiting w)) reply)
       (exec env (Await c k) w next)
  = run env' (k (reply c))
        (mkWorld next (nextTimer w) (intervals w) (timeouts w)
                 (awaiting w)
                 (calls w ++ [mkCalled c (state w) next]) (outputs w)
                 (uncaught w)).
Proof.
  simpl. rewrite nth_error_last, removeNth_last. reflexivity.
Qed.

End Settling.

End ProcFacts.

(* ================================================================== *)
(** * The document registry                                            *)
(* ================================================================== *)

Module Registry.
Import JS Proc App ProcFacts Examples.

(** C1 (as amended): an upload that succeeded puts its document at the
    head of the sequence and keeps the sequence it found behind it,
    whether or not the id is listed already; the sequence then holds one
    more entry with that id than before, and the document is selected. *)
Theorem addFront_prepends (env : Env) (doc : Api.Document) (w : World) :
  let w' := fire env (uploaded doc) w in
  documents (state w') = doc :: documents (state w) /\
  selectedDocument (state w') = Some doc /\
  entriesWith (Api.id doc) (documents (state w')) =
  S (entriesWith (Api.id doc) (documents (state w))).
Proof.
  simpl. repeat split.
  unfold entriesWith. simpl. rewrite eqb_refl. reflexivity.
Qed.

(** C1, counterexample: two uploads answered with the same id and
    different file names leave two entries with that id, the older file
    name among them. *)
Lemma addFront_twice_duplicates :
  let w := fireAll [(clock, uploaded report_v1); (clock, uploaded report_v2)]
                   (idle initial) in
  documents (state w) = [report_v2; report_v1] /\
  entriesWith (lit "d1") (documents (state w)) = 2%nat /\
  entriesWith (lit "d1") (documents (state w)) <> 1%nat.
Proof.
  cbv zeta. split; [reflexivity|]. split; [reflexivity|].
  vm_compute. discriminate.
Qed.

Lemma filter_keeps {A} (f : A -> bool) (l : list A) :
  List.length (filter f l) = 0%nat -> filter (fun a => negb (f a)) l = l.
Proof.
  induction l as [|a l IH]; simpl; auto.
  destruct (f a); simpl; [discriminate|].
  intro H. rewrite IH; auto.
Qed.

Lemma filter_drops {A} (f : A -> bool) (l : list A) :
  List.length (filter f (filter (fun a => negb (f a)) l)) = 0%nat.
Proof.
  induction l as [|a l IH]; simpl; auto.
  destruct (f a) eqn:E; simpl; auto. rewrite E. assumption.
Qed.

(** What [removed] does to the state. *)
Lemma removed_state (env : Env) (docId : jsstring) (w : World) :
  state (fire env (removed docId) w) =
  mkState (filter (fun d => negb (JS.eqb (Api.id d) docId))
                  (documents (state w)))
          (if selectedIs (selectedDocument (state w)) docId
           then None else selectedDocument (state w))
          (showUpload (state w)).
Proof.
  simpl. destruct (selectedIs (selectedDocument (state w)) docId);
    reflexivity.
Qed.

(** What a click on the [i]-th card does to the state. *)
Lemma select_state (env : Env) (i : nat) (w : World) :
  state (fire env (select i) w) =
  match nth_error (documents (state w)) i with
  | Some doc => setSelectedDocument (Some doc) (state w)
  | None => state w
  end.
Proof.
  simpl. unfold DocumentList.clickCard. simpl.
  destruct (nth_error (documents (state w)) i); reflexivity.
Qed.

(** Uploads, acknowledged deletes and clicks on the list keep the
    selection among the listed documents. *)
Lemma selectionListed_preserved (env : Env) (ev : Event) (w : World) :
  registryOp ev ->
  selectionListed (state w) ->
  selectionListed (state (fire env ev w)).
Proof.
  intros [doc | docId | i] Hinv.
  - simpl. exists doc. split; [left|]; reflexivity.
  - rewrite removed_state. unfold selectionListed in *. simpl.
    destruct (selectedDocument (state w)) as [d|]; simpl; auto.
    destruct (JS.eqb (Api.id d) docId) eqn:E; auto.
    destruct Hinv as (d' & Hin & Hid). exists d'. split; auto.
    apply filter_In. split; auto. rewrite Hid, E. reflexivity.
  - rewrite select_state.
    destruct (nth_error (documents (state w)) i) as [doc|] eqn:E; auto.
    simpl. exists doc. split; auto.
    apply nth_error_In with (n := i). assumption.
Qed.

(** The world a confirmed click on the delete button of a card leaves,
    and what the suspended handler does when it resumes: it removes the
    document with the selection of the render of the click. *)
Lemma delete_world (env : Env) (i : nat) (w : World) (doc : Api.Document) :
  nth_error (documents (state w)) i = Some doc ->
  (forall m, confirm env m = true) ->
  exists k,
    fire env (delete i) w =
    mkWorld (state w) (nextTimer w) (intervals w) (timeouts w)
            (awaiting w ++ [mkPending (DeleteDocument (Api.id doc)) k])
            (calls w ++
               [mkCalled (DeleteDocument (Api.id doc)) (state w) (state w)])
            (outputs w) (uncaught w) /\
    (forall env' r v,
       run env' (k (Fulfilled r)) v =
       run env' (handleDeleteDocument (state w) (Api.id doc)) v) /\
    (forall env' e v,
       run env' (k (Rejected e)) v =
       run env'
           (Emit (Alert (lit "Failed to delete: " ++ message e)) Return) v).
Proof.
  intros Hdoc Hyes. unfold delete, fire.
  unfold DocumentList.clickDelete.
  cbn [DocumentList.documents documentListProps]. rewrite Hdoc.
  unfold DocumentList.handleDelete. cbn [run exec]. rewrite Hyes. cbn [negb].
  unfold await. cbn [tryCatch DocumentList.onDelete documentListProps run exec].
  eexists. split; [reflexivity|]. split; [|reflexivity].
  intros env' r v. unfold handleDeleteDocument.
  destruct (selectedIs (selectedDocument (state w)) (Api.id doc));
    reflexivity.
Qed.






(** The callback behind a card stores the document it is handed; it does
    not look the document up in the sequence. *)
Lemma onSelect_unguarded (env : Env) (doc : Api.Document) (w : World) :
  selectedDocument
    (state (run env (DocumentList.onSelect (documentListProps (state w)) doc)
                w)) = Some doc.
Proof. reflexivity. Qed.

(** A delete that is acknowledged after the selection has moved to the
    document being deleted: the handler that resumes still holds the
    selection of the render in which the delete was clicked, and leaves
    the deleted document selected. *)
Lemma delete_racing_select :
  let w := idle (mkState [report_v1; notes] (Some notes) false) in
  let w' := fireAll [(clock, delete 0); (clock, select 0);
                     (clock, Settle 0 acknowledging)] w in
  documents (state w') = [notes] /\
  selectedDocument (state w') = Some report_v1.
Proof. cbv zeta. split; reflexivity. Qed.

(** The list request, once settled. *)
Lemma mount_settled (env env' : Env) (w : World)
      (reply : forall c, Outcome (Reply c)) :
  fire env' (Settle (List.length (awaiting w)) reply) (fire env mount w) =
  match reply ListDocuments with
  | Fulfilled response =>
      mkWorld (setDocuments (fun _ => or_array (Api.documents response) [])
                            (state w))
              (nextTimer w) (intervals w) (timeouts w) (awaiting w)
              (calls w ++ [mkCalled ListDocuments (state w) (state w)])
              (outputs w)
              (uncaught w)
  | Rejected e =>
      mkWorld (state w) (nextTimer w) (intervals w) (timeouts w)
              (awaiting w)
              (calls w ++ [mkCalled ListDocuments (state w) (state w)])
              (outputs w ++
                 [ConsoleError (lit "Failed to load documents:") e])
              (uncaught w)
  end.
Proof.
  unfold mount, fire at 2, loadDocuments, await. cbn [tryCatch].
  rewrite (settle_last _ _ _ _ env env' _ _ w reply).
  destruct (reply ListDocuments); reflexivity.
Qed.

(** A click on the delete button of the [i]-th card, once the request it
    may have sent is settled with a failure. *)
Lemma delete_failed (env env' : Env) (i : nat) (w : World)
      (reply : forall c, Outcome (Reply c)) :
  (forall docId, exists e, reply (DeleteDocument docId) = Rejected e) ->
  let w' := fire env' (Settle (List.length (awaiting w)) reply)
                 (fire env (delete i) w) in
  state w' = state w /\ uncaught w' = uncaught w.
Proof.
  intros Hfail w'.
  cut (exists cs os,
         w' = mkWorld (state w) (nextTimer w) (intervals w) (timeouts w)
                      (awaiting w) cs os (uncaught w)).
  { intros (cs & os & ->). split; reflexivity. }
  assert (Hnone : nth_error (awaiting w) (List.length (awaiting w)) = None)
    by (apply nth_error_None; lia).
  assert (Hrest : fire env' (Settle (List.length (awaiting w)) reply) w = w)
    by (simpl; rewrite Hnone; reflexivity).
  assert (Hw : exists cs os,
             w = mkWorld (state w) (nextTimer w) (intervals w) (timeouts w)
                         (awaiting w) cs os (uncaught w))
    by (exists (calls w), (outputs w); destruct w; reflexivity).
  subst w'. unfold delete, fire at 2.
  unfold DocumentList.clickDelete.
  cbn [DocumentList.documents documentListProps].
  destruct (nth_error (documents (state w)) i) as [doc|].
  - unfold DocumentList.handleDelete. cbn [run exec].
    destruct (confirm env _); cbn [negb].
    + unfold await.
      cbn [tryCatch DocumentList.onDelete documentListProps].
      rewrite settle_exec.
      destruct (Hfail (Api.id doc)) as [e ->].
      eexists _, _. reflexivity.
    + rewrite exec_Return, Hrest. exact Hw.
  - rewrite run_Return, Hrest. exact Hw.
Qed.

(** C9: when the list request fails, the state (sequence and selection)
    is what it was, the error goes to the console and nothing is thrown;
    when it succeeds, the sequence is the returned one, in the returned
    order, and the selection is untouched; when a delete request fails, the
    state is what it was: no document is removed. *)
Theorem failures_keep_registry (env env' : Env) (w : World)
        (reply : forall c, Outcome (Reply c)) :
  let n := List.length (awaiting w) in
  let refreshed := fire env' (Settle n reply) (fire env mount w) in
  (forall e, reply ListDocuments = Rejected e ->
     state refreshed = state w /\
     uncaught refreshed = uncaught w /\
     outputs refreshed =
       outputs w ++ [ConsoleError (lit "Failed to load documents:") e]) /\
  (forall l, reply ListDocuments = Fulfilled (Api.mkListResponse (Val l)) ->
     documents (state refreshed) = l /\
     selectedDocument (state refreshed) = selectedDocument (state w)) /\
  (forall i,
     (forall docId, exists e, reply (DeleteDocument docId) = Rejected e) ->
     let w' := fire env' (Settle n reply) (fire env (delete i) w) in
     state w' = state w /\ uncaught w' = uncaught w).
Proof.
  intros n refreshed. subst n refreshed. rewrite mount_settled.
  split; [|split].
  - intros e ->. repeat split.
  - intros l ->. split; reflexivity.
  - intros i Hfail. apply delete_failed. exact Hfail.
Qed.

Lemma failures_keep_registry_witness :
  let s := mkState [report_v1; notes] (Some notes) false in
  state (fire clock (Settle 0 unreachable) (fire clock mount (idle s))) = s /\
  state (fire clock (Settle 0 unreachable) (fire clock (delete 0) (idle s)))
  = s.
Proof.
  intro s.
  destruct (failures_keep_registry clock clock (idle s) unreachable)
    as (Hlist & _ & Hdelete).
  split.
  - apply (Hlist (mkError (lit "Failed to fetch"))). reflexivity.
  - apply (Hdelete 0%nat). intro docId. eexists. reflexivity.
Defined.

End Registry.

(* ================================================================== *)
(** * The upload session                                               *)
(* ================================================================== *)

Module Upload.
Import JS Proc FileUpload ProcFacts Examples.

Lemma extension_test (name : jsstring) :
  endsWith (toLowerCase name) (lit ".pdf") = false <-> ~ hasPdfExtension name.
Proof.
  rewrite <- JSFacts.endsWith_pdf.
  destruct (endsWith _ _); split; intro H; congruence.
Qed.

Lemma size_test (n : N) : (50 * 1024 * 1024 <? n) = false <-> n <= 50 * MiB.
Proof. rewrite N.ltb_ge. unfold MiB. lia. Qed.

(** C3: a file whose name does not end in the extension, or that is
    larger than 50 MiB, sets a validation message as the error and
    touches nothing else: no call is made and nothing is awaited; when no
    upload is under way the session is in the failed phase with that
    reason. A file with the extension and at most 50 MiB clears the error
    and enters the uploading phase with progress 0, and the upload call
    is made. *)
Theorem validation (env : Env) (props : Props) (file : Api.File)
        (w : World) :
  let w' := run env (handleFile props file) w in
  (~ hasPdfExtension (Api.name file) \/ 50 * MiB < Api.size file ->
   exists reason,
     validationError reason /\
     w' = withState w (setError (Some reason) (state w)) /\
     calls w' = calls w /\ awaiting w' = awaiting w /\
     (isUploading (state w) = false -> phase (state w') = Failed reason)) /\
  (hasPdfExtension (Api.name file) /\ Api.size file <= 50 * MiB ->
   phase (state w') = Uploading 0 /\
   error (state w') = None /\
   calls w' =
     calls w ++ [mkCalled (UploadDocument file) (state w) (state w')]).
Proof.
  intro w'. subst w'. unfold handleFile.
  destruct (endsWith (toLowerCase (Api.name file)) (lit ".pdf")) eqn:Hext;
    cbn [negb].
  - destruct (50 * 1024 * 1024 <? Api.size file) eqn:Hsize.
    + split.
      * intros _. exists (lit "File size must be less than 50MB").
        split; [right; reflexivity|].
        cbn [run exec]. repeat split.
        intro Hidle. unfold phase. simpl. rewrite Hidle. reflexivity.
      * intros [_ H]. apply size_test in H. congruence.
    + split.
      * intros [H | H].
        -- apply extension_test in H. congruence.
        -- apply N.ltb_ge in Hsize. unfold MiB in H. lia.
      * intros _. cbn. repeat split.
  - split.
    + intros _. exists (lit "Please upload a PDF file").
      split; [left; reflexivity|].
      cbn [run exec]. repeat split.
      intro Hidle. unfold phase. simpl. rewrite Hidle. reflexivity.
    + intros [H _]. apply JSFacts.endsWith_pdf in H. congruence.
Qed.

Lemma report_has_extension : hasPdfExtension (Api.name reportFile).
Proof.
  exists (lit "Report"), 80, 68, 70. repeat split; auto.
Defined.

Lemma picture_lacks_extension : ~ hasPdfExtension (Api.name pictureFile).
Proof.
  apply extension_test. reflexivity.
Defined.

Lemma validation_witness :
  phase (state (run clock (handleFile noProps reportFile) (idle initial)))
  = Uploading 0 /\
  exists reason,
    validationError reason /\
    phase (state (run clock (handleFile noProps pictureFile) (idle initial)))
    = Failed reason.
Proof.
  split.
  - destruct (validation clock noProps reportFile (idle initial)) as [_ H].
    apply H. split; [exact report_has_extension|].
    unfold MiB. simpl. lia.
  - destruct (validation clock noProps pictureFile (idle initial)) as [H _].
    destruct (H (or_introl picture_lacks_extension))
      as (reason & Hr & _ & _ & _ & Hphase).
    exists reason. split; [exact Hr|]. apply Hphase. reflexivity.
Defined.

Section Uploading.
Variables (env : Env) (props : Props) (file : Api.File) (s : State).
Hypothesis Hext : endsWith (toLowerCase (Api.name file)) (lit ".pdf") = true.
Hypothesis Hsize : (50 * 1024 * 1024 <? Api.size file) = false.







End Uploading.



End Upload.

(* ================================================================== *)
(** * The query session                                                *)
(* ================================================================== *)

Module Chat.
Import JS Proc ChatInterface ProcFacts Examples.

Lemma blank_test (s : jsstring) :
  truthy (trim s) = true <-> ~ blank s.
Proof.
  unfold blank. rewrite <- JSFacts.truthy_trim.
  destruct (truthy (trim s)); split; congruence.
Qed.

(** A submission that the guard of [handleSubmit] turns away changes
    nothing at all. *)
Lemma submit_rejected (env : Env) (props : Props) (w : World) :
  blank (inputValue (state w)) \/ selectedDocument props = None \/
  isLoading (state w) = true ->
  fire env (submit props) w = w.
Proof.
  intro H. unfold submit, fire, handleSubmit.
  destruct H as [H | [H | H]].
  - apply JSFacts.truthy_trim in H. rewrite H. apply run_Return.
  - rewrite H. rewrite orb_true_r. apply run_Return.
  - rewrite H. rewrite orb_true_r. apply run_Return.
Qed.

(** The world a submission that passes the guard leaves: the input is
    cleared, the user's turn is appended, the session is loading, and the
    handler is suspended at the query. *)
Lemma submit_accepted (env : Env) (props : Props) (w : World)
      (doc : Api.Document) :
  ~ blank (inputValue (state w)) ->
  selectedDocument props = Some doc ->
  isLoading (state w) = false ->
  let question := trim (inputValue (state w)) in
  let asking :=
    mkState (messages (state w) ++ [mkMessage (now env) question true Undefined])
            [] true in
  exists k,
    fire env (submit props) w =
    mkWorld asking (nextTimer w) (intervals w) (timeouts w)
            (awaiting w ++ [mkPending (QueryDocument (Api.id doc) question) k])
            (calls w ++ [mkCalled (QueryDocument (Api.id doc) question) (state w)
                                 asking])
            (outputs w) (uncaught w) /\
    (forall env' err,
       run env' (k (Rejected err))
           (mkWorld asking (nextTimer w) (intervals w) (timeouts w)
                    (awaiting w)
                    (calls w ++ [mkCalled (QueryDocument (Api.id doc) question) (state w)
                                 asking])
                    (outputs w) (uncaught w)) =
       mkWorld
         (mkState (messages asking ++
                     [mkMessage (now env' + 1) (errorMarker ++ message err)
                                false (Val [])])
                  [] false)
         (nextTimer w) (intervals w) (timeouts w) (awaiting w)
         (calls w ++ [mkCalled (QueryDocument (Api.id doc) question) (state w)
                                 asking])
         (outputs w) (uncaught w)) /\
    (forall env' response,
       run env' (k (Fulfilled response))
           (mkWorld asking (nextTimer w) (intervals w) (timeouts w)
                    (awaiting w)
                    (calls w ++ [mkCalled (QueryDocument (Api.id doc) question) (state w)
                                 asking])
                    (outputs w) (uncaught w)) =
       mkWorld
         (mkState (messages asking ++
                     [mkMessage (now env' + 1) (Api.answer response) false
                                (Val (or_array (Api.sources response) []))])
                  [] false)
         (nextTimer w) (intervals w) (timeouts w) (awaiting w)
         (calls w ++ [mkCalled (QueryDocument (Api.id doc) question) (state w)
                                 asking])
         (outputs w) (uncaught w)).
Proof.
  intros Hq Hdoc Hidle question asking.
  apply blank_test in Hq.
  unfold submit, fire, handleSubmit.
  rewrite Hq, Hdoc, Hidle. cbn [negb orb].
  eexists. split; [reflexivity|]. split; reflexivity.
Qed.

(** The query of an accepted submission, once settled. *)
Lemma query_settled (env env' : Env) (props : Props) (w : World)
      (doc : Api.Document) (reply : forall c, Outcome (Reply c)) :
  ~ blank (inputValue (state w)) ->
  selectedDocument props = Some doc ->
  isLoading (state w) = false ->
  let question := trim (inputValue (state w)) in
  let asked := fire env (submit props) w in
  let turn :=
    match reply (QueryDocument (Api.id doc) question) with
    | Fulfilled response =>
        mkMessage (now env' + 1) (Api.answer response) false
                  (Val (or_array (Api.sources response) []))
    | Rejected err =>
        mkMessage (now env' + 1) (errorMarker ++ message err) false (Val [])
    end in
  fire env' (Settle (List.length (awaiting w)) reply) asked =
  mkWorld (mkState (messages (state asked) ++ [turn]) [] false)
          (nextTimer w) (intervals w) (timeouts w) (awaiting w)
          (calls asked) (outputs w) (uncaught w).
Proof.
  intros Hq Hdoc Hidle question asked turn. subst asked turn.
  destruct (submit_accepted env props w doc Hq Hdoc Hidle)
    as (k & -> & Hfail & Hok).
  fold question. unfold fire. cbn [awaiting].
  rewrite nth_error_last, removeNth_last. cbn [resume call].
  cbn [state nextTimer intervals timeouts calls outputs uncaught].
  destruct (reply (QueryDocument (Api.id doc) question)) as [response|err].
  - rewrite Hok. reflexivity.
  - rewrite Hfail. reflexivity.
Qed.


Lemma typed_not_blank : ~ blank (inputValue (state typed)).
Proof.
  apply blank_test. reflexivity.
Defined.






(** The opening text has both counts, each before its noun. *)
Lemma opening_text (doc : Api.Document) :
  mentions (readyText doc)
           (lit "I've processed " ++ numberToString (Api.page_count doc)
              ++ lit " pages into " ++ numberToString (Api.chunk_count doc)
              ++ lit " searchable chunks").
Proof.
  unfold mentions, readyText.
  exists ([55357; 56516] ++ lit " **" ++ Api.filename doc
            ++ lit "** is ready!" ++ [10; 10]),
         (lit ". Ask me anything about this document!").
  repeat (progress (rewrite <- ?app_assoc; simpl)). reflexivity.
Qed.

(** C6: when the selected document changes, the turns are replaced. With
    a document selected they become the one assistant turn, with no
    sources, whose text mentions the page count and the chunk count of that
    document, each followed by its noun: the count is written as a
    template literal writes a number, never as the empty text, and for a
    count up to 2^53 as its decimal numeral. With no document selected no
    turn is left. *)
Theorem selection_resets (env : Env) (props : Props) (w : World) :
  let w' := fire env (selectionChanged props) w in
  match selectedDocument props with
  | Some doc =>
      exists turn pages chunks,
        messages (state w') = [turn] /\
        isUser turn = false /\
        sources turn = Val [] /\
        mentions (content turn)
                 (lit "I've processed " ++ pages ++ lit " pages into "
                    ++ chunks ++ lit " searchable chunks") /\
        pages = numberToString (Api.page_count doc) /\
        chunks = numberToString (Api.chunk_count doc) /\
        pages <> [] /\ chunks <> [] /\
        (Api.page_count doc <= 2 ^ 53 ->
         decimalNumeral (Api.page_count doc) pages) /\
        (Api.chunk_count doc <= 2 ^ 53 ->
         decimalNumeral (Api.chunk_count doc) chunks)
  | None => messages (state w') = []
  end.
Proof.
  unfold selectionChanged, fire, resetMessages.
  destruct (selectedDocument props) as [doc|]; [|reflexivity].
  cbn. eexists. exists (numberToString (Api.page_count doc)).
  exists (numberToString (Api.chunk_count doc)).
  split; [reflexivity|]. do 2 (split; [reflexivity|]). split.
  { cbn [content]. apply opening_text. }
  do 2 (split; [reflexivity|]).
  split; [apply NumberFacts.numberToString_written|].
  split; [apply NumberFacts.numberToString_written|].
  split; apply NumberFacts.numberToString_numeral.
Qed.

Lemma selection_resets_witness :
  exists turn,
    messages (state (fire clock (selectionChanged onReport) (idle initial)))
    = [turn] /\
    mentions (content turn) (lit "5 pages into 12 searchable chunks") /\
    decimalNumeral 5 (lit "5") /\ decimalNumeral 12 (lit "12").
Proof.
  destruct (selection_resets clock onReport (idle initial))
    as (turn & pages & chunks & Hm & _ & _ & Hs & -> & -> & _ & _ & Hp & Hc).
  exists turn. split; [exact Hm|]. split.
  - destruct Hs as (before & after & ->).
    exists (before ++ lit "I've processed "), after.
    repeat rewrite <- app_assoc. reflexivity.
  - split; [apply Hp | apply Hc]; vm_compute; discriminate.
Defined.

(** The turn that opens the conversation on [report_v1], five pages in
    twelve chunks. *)
Lemma report_ready :
  mentions (readyText report_v1) (lit "5 pages into 12 searchable chunks").
Proof.
  exists ([55357; 56516] ++ lit " **report.pdf** is ready!" ++ [10; 10]
            ++ lit "I've processed "),
         (lit ". Ask me anything about this document!").
  reflexivity.
Qed.

End Chat.

(* ================================================================== *)
(** * Lists the service leaves out                                     *)
(* ================================================================== *)

Module Defaults.
Import JS Proc ProcFacts Examples.

(** C10: when a query succeeds and the response has no [sources], or
    [null], the assistant turn that is appended carries the empty list of
    sources; when the list request succeeds and the response has no
    [documents], or [null], the sequence of the registry becomes empty. *)
Theorem missing_lists_default (env env' : Env) :
  (forall (props : ChatInterface.Props) (w : ChatInterface.World)
          (doc : Api.Document)
          (reply : forall c, Outcome (ChatInterface.Reply c))
          (answer : jsstring) (src : field (list jsstring)),
     ~ ChatInterface.blank (ChatInterface.inputValue (state w)) ->
     ChatInterface.selectedDocument props = Some doc ->
     ChatInterface.isLoading (state w) = false ->
     reply (ChatInterface.QueryDocument
              (Api.id doc) (trim (ChatInterface.inputValue (state w))))
     = Fulfilled (Api.mkQueryResponse answer src) ->
     src = Undefined \/ src = Null ->
     let asked := fire env (ChatInterface.submit props) w in
     let w' := fire env' (Settle (List.length (awaiting w)) reply) asked in
     ChatInterface.messages (state w') =
       ChatInterface.messages (state asked) ++
       [ChatInterface.mkMessage (now env' + 1) answer false (Val [])]) /\
  (forall (w : App.World) (reply : forall c, Outcome (App.Reply c))
          (docs : field (list Api.Document)),
     reply App.ListDocuments = Fulfilled (Api.mkListResponse docs) ->
     docs = Undefined \/ docs = Null ->
     let w' := fire env' (Settle (List.length (awaiting w)) reply)
                    (fire env App.mount w) in
     App.documents (state w') = []).
Proof.
  split.
  - intros props w doc reply answer src Hq Hdoc Hidle Hreply Hsrc asked w'.
    subst asked w'.
    rewrite (Chat.query_settled env env' props w doc reply Hq Hdoc Hidle).
    rewrite Hreply. destruct Hsrc as [-> | ->]; reflexivity.
  - intros w reply docs Hreply Hdocs w'. subst w'.
    rewrite Registry.mount_settled, Hreply.
    destruct Hdocs as [-> | ->]; reflexivity.
Qed.

Lemma missing_lists_default_witness :
  let answering : forall c, Outcome (ChatInterface.Reply c) :=
    ChatInterface.adapter
      (always (Api.Success
                 (Fulfilled (Api.mkQueryResponse (lit "It is a summary.")
                                                 Null)))) in
  let w' := fire clock (Settle 0 answering)
                 (fire clock (ChatInterface.submit onReport) typed) in
  nth_error (ChatInterface.messages (state w')) 2 =
    Some (ChatInterface.mkMessage (now clock + 1) (lit "It is a summary.")
                                  false (Val [])) /\
  App.documents
    (state (fire clock (Settle 0 acknowledging)
                 (fire clock App.mount
                       (idle (App.mkState [notes] None false))))) = [].
Proof.
  intros answering w'.
  destruct (missing_lists_default clock clock) as [Hquery Hlist].
  split.
  - pose proof (Hquery onReport typed report_v1 answering
                       (lit "It is a summary.") Null
                       Chat.typed_not_blank eq_refl eq_refl eq_refl
                       (or_intror eq_refl)) as E.
    cbv zeta in E.
    change (List.length (awaiting typed)) with 0%nat in E.
    subst w'. rewrite E. reflexivity.
  - apply (Hlist (idle (App.mkState [notes] None false)) acknowledging
                 Undefined eq_refl (or_introl eq_refl)).
Defined.

End Defaults.

(* ================================================================== *)
(** * More on the runtime                                              *)
(* ================================================================== *)

Module TrimFacts.
Import JS JSFacts.

Lemma trimStart_split (s : jsstring) :
  exists lead,
    s = lead ++ trimStart s /\ Forall (fun u => isWhiteSpace u = true) lead.
Proof.
  induction s as [|u s (lead & Hs & Hlead)]; simpl.
  - exists []. split; [reflexivity | constructor].
  - destruct (isWhiteSpace u) eqn:E.
    + exists (u :: lead). split; [simpl; congruence | constructor; assumption].
    + exists []. split; [reflexivity | constructor].
Qed.

Lemma trimEnd_split (s : jsstring) :
  exists trail,
    s = trimEnd s ++ trail /\ Forall (fun u => isWhiteSpace u = true) trail.
Proof.
  unfold trimEnd.
  destruct (trimStart_split (rev s)) as (lead & Hs & Hlead).
  exists (rev lead). split.
  - rewrite <- rev_app_distr, <- Hs, rev_involutive. reflexivity.
  - apply Forall_rev. assumption.
Qed.

(** [trim] takes white space off both ends and nothing else. *)
Lemma trim_split (s : jsstring) :
  exists lead trail,
    s = lead ++ trim s ++ trail /\
    Forall (fun u => isWhiteSpace u = true) lead /\
    Forall (fun u => isWhiteSpace u = true) trail.
Proof.
  destruct (trimStart_split s) as (lead & Hs & Hlead).
  destruct (trimEnd_split (trimStart s)) as (trail & Ht & Htrail).
  exists lead, trail. unfold trim. rewrite <- Ht. auto.
Qed.

Lemma trim_last (s t : jsstring) (u : N) :
  trim s = t ++ [u] -> isWhiteSpace u = false.
Proof.
  unfold trim, trimEnd. intro H.
  apply (f_equal (@rev N)) in H.
  rewrite rev_involutive, rev_app_distr in H. simpl in H.
  apply trimStart_head in H. assumption.
Qed.

Lemma trim_head (s t : jsstring) (u : N) :
  trim s = u :: t -> isWhiteSpace u = false.
Proof.
  intro H.
  destruct (trimEnd_split (trimStart s)) as (trail & Ht & _).
  fold (trim s) in Ht. rewrite H in Ht. simpl in Ht.
  apply trimStart_head in Ht. assumption.
Qed.

(** What is left of a trimmed string when it is trimmed again. *)
Lemma trim_trim (s : jsstring) : trim (trim s) = trim s.
Proof.
  assert (Hstart : trimStart (trim s) = trim s).
  { destruct (trim s) as [|u t] eqn:E; [reflexivity|].
    simpl. rewrite (trim_head s t u E). reflexivity. }
  unfold trim at 1. rewrite Hstart.
  unfold trimEnd.
  destruct (rev (trim s)) as [|u t] eqn:E.
  - apply rev_nil_inv in E. rewrite E. reflexivity.
  - assert (Hu : isWhiteSpace u = false).
    { apply (trim_last s (rev t) u).
      rewrite <- (rev_involutive (trim s)), E. reflexivity. }
    simpl. rewrite Hu. rewrite <- E. apply rev_involutive.
Qed.

End TrimFacts.

(* ================================================================== *)
(** * More on the query session                                        *)
(* ================================================================== *)

Module Conversation.
Import JS Proc ChatInterface ProcFacts Examples.

(** The world an accepted submission leaves, with what the suspended
    handler does when it resumes, in whatever world that is. *)
Lemma accepted_world (env : Env) (props : Props) (w : World)
      (doc : Api.Document) :
  ~ blank (inputValue (state w)) ->
  selectedDocument props = Some doc ->
  isLoading (state w) = false ->
  let question := trim (inputValue (state w)) in
  let asking :=
    mkState (messages (state w) ++ [mkMessage (now env) question true Undefined])
            [] true in
  exists k,
    fire env (submit props) w =
    mkWorld asking (nextTimer w) (intervals w) (timeouts w)
            (awaiting w ++ [mkPending (QueryDocument (Api.id doc) question) k])
            (calls w ++ [mkCalled (QueryDocument (Api.id doc) question) (state w)
                                 asking])
            (outputs w) (uncaught w) /\
    forall env' (o : Outcome Api.QueryResponse) (v : World),
      run env' (k o) v =
      withState v
        (mkState
           (messages (state v) ++
              [match o with
               | Fulfilled response =>
                   mkMessage (now env' + 1) (Api.answer response) false
                             (Val (or_array (Api.sources response) []))
               | Rejected err =>
                   mkMessage (now env' + 1) (errorMarker ++ message err)
                             false (Val [])
               end])
           (inputValue (state v)) false).
Proof.
  intros Hq Hdoc Hidle question asking.
  apply Chat.blank_test in Hq.
  unfold submit, fire, handleSubmit.
  rewrite Hq, Hdoc, Hidle. cbn [negb orb].
  eexists. split; [reflexivity|].
  intros env' [response|err] v; reflexivity.
Qed.

(** X1: the question that is sent is the input without the white space
    around it: it is not empty, neither starts nor ends with white space,
    and the input is the question between two runs of white space. The
    user's turn carries the same text, and the input is cleared. *)
Theorem question_is_trimmed (env : Env) (props : Props) (w : World)
        (doc : Api.Document) :
  ~ blank (inputValue (state w)) ->
  selectedDocument props = Some doc ->
  isLoading (state w) = false ->
  let w' := fire env (submit props) w in
  exists question lead trail,
    inputValue (state w) = lead ++ question ++ trail /\
    blank lead /\ blank trail /\
    question <> [] /\
    (forall u t, question = u :: t -> isWhiteSpace u = false) /\
    (forall t u, question = t ++ [u] -> isWhiteSpace u = false) /\
    map what (calls w') =
      map what (calls w) ++ [QueryDocument (Api.id doc) question] /\
    map content (messages (state w')) =
      map content (messages (state w)) ++ [question] /\
    inputValue (state w') = [].
Proof.
  intros Hq Hdoc Hidle w'. subst w'.
  destruct (accepted_world env props w doc Hq Hdoc Hidle) as (k & -> & _).
  destruct (TrimFacts.trim_split (inputValue (state w)))
    as (lead & trail & Hsplit & Hlead & Htrail).
  exists (trim (inputValue (state w))), lead, trail.
  split; [exact Hsplit|]. split; [exact Hlead|]. split; [exact Htrail|].
  split.
  { intro H. apply Hq. apply JSFacts.trim_nil. exact H. }
  split; [intros u t H; exact (TrimFacts.trim_head _ _ _ H)|].
  split; [intros t u H; exact (TrimFacts.trim_last _ _ _ H)|].
  cbn [calls state messages inputValue].
  rewrite !map_app. repeat split.
Qed.

Lemma question_is_trimmed_witness :
  exists question,
    question <> [] /\
    map what (calls (fire clock (submit onReport) typed)) =
    map what (calls typed) ++ [QueryDocument (lit "d1") question].
Proof.
  destruct (question_is_trimmed clock onReport typed report_v1
              Chat.typed_not_blank eq_refl eq_refl)
    as (q & lead & trail & _ & _ & _ & Hne & _ & _ & H & _).
  exists q. split; [exact Hne | exact H].
Defined.

(** X2: when the query of an accepted submission succeeds, the
    conversation has grown by exactly the user's turn and then the
    assistant's turn with the returned answer and the returned sources, in
    that order; the session is no longer loading, nothing is pending and
    nothing was thrown. *)
Theorem answered (env env' : Env) (props : Props) (w : World)
        (doc : Api.Document) (reply : forall c, Outcome (Reply c))
        (text : jsstring) (cited : list jsstring) :
  ~ blank (inputValue (state w)) ->
  selectedDocument props = Some doc ->
  isLoading (state w) = false ->
  (forall c, reply c = Fulfilled (Api.mkQueryResponse text (Val cited))) ->
  let w' := fire env' (Settle (List.length (awaiting w)) reply)
                 (fire env (submit props) w) in
  exists question,
    messages (state w') =
      messages (state w) ++
      [mkMessage (now env) question true Undefined;
       mkMessage (now env' + 1) text false (Val cited)] /\
    isLoading (state w') = false /\
    awaiting w' = awaiting w /\
    uncaught w' = uncaught w /\
    List.length (calls w') = S (List.length (calls w)).
Proof.
  intros Hq Hdoc Hidle Hreply w'. subst w'.
  rewrite (Chat.query_settled env env' props w doc reply Hq Hdoc Hidle).
  rewrite Hreply.
  destruct (accepted_world env props w doc Hq Hdoc Hidle) as (k & -> & _).
  exists (trim (inputValue (state w))).
  cbn [state messages isLoading awaiting uncaught calls Api.answer
       Api.sources or_array].
  rewrite <- app_assoc, length_app. simpl.
  repeat split. lia.
Qed.

Lemma answered_witness :
  let w' := fire clock (Settle 0 summarizing)
                 (fire clock (submit onReport) typed) in
  List.length (messages (state w')) = 3%nat /\ isLoading (state w') = false.
Proof.
  intro w'.
  destruct (answered clock clock onReport typed report_v1 summarizing
              (lit "It is a summary.") [lit "p.2: ..."]
              Chat.typed_not_blank eq_refl eq_refl (fun _ => eq_refl))
    as (q & Hm & Hl & _).
  split; [|exact Hl].
  subst w'. change (List.length (awaiting typed)) with 0%nat in Hm.
  rewrite Hm. reflexivity.
Defined.

(** X3: while a query is in flight, no further submission gets through,
    whatever is typed and whichever document is selected meanwhile: the
    conversation, the pending calls and the calls made stay as they are. *)
Theorem one_query_in_flight (env env1 env2 : Env) (props props' : Props)
        (w : World) (doc : Api.Document) (typed' : jsstring) :
  ~ blank (inputValue (state w)) ->
  selectedDocument props = Some doc ->
  isLoading (state w) = false ->
  let asked := fire env (submit props) w in
  let retyped := fire env1 (Actions.type typed') asked in
  fire env2 (submit props') retyped = retyped /\
  messages (state retyped) = messages (state asked) /\
  calls retyped = calls asked /\
  List.length (calls asked) = S (List.length (calls w)).
Proof.
  intros Hq Hdoc Hidle asked retyped. subst retyped asked.
  destruct (accepted_world env props w doc Hq Hdoc Hidle) as (k & -> & _).
  split; [|split; [reflexivity|split; [reflexivity|]]].
  - apply Chat.submit_rejected. right. right. reflexivity.
  - cbn [calls]. rewrite length_app. simpl. lia.
Qed.

Lemma one_query_in_flight_witness :
  let asked := fire clock (submit onReport) typed in
  let retyped := fire clock (Actions.type (lit "And the details?")) asked in
  fire clock (submit onReport) retyped = retyped.
Proof.
  intros asked retyped.
  destruct (one_query_in_flight clock clock clock onReport onReport typed
              report_v1 (lit "And the details?")
              Chat.typed_not_blank eq_refl eq_refl) as [H _].
  exact H.
Defined.

(** The effect on a changed selection only replaces the messages. *)
Lemma reset_world (env : Env) (props : Props) (v : World) :
  fire env (selectionChanged props) v =
  withState v
    (setMessages
       (fun _ => match selectedDocument props with
                 | Some doc =>
                     [mkMessage (now env) (readyText doc) false (Val [])]
                 | None => []
                 end)
       (state v)).
Proof.
  unfold selectionChanged, fire, resetMessages.
  destruct (selectedDocument props); reflexivity.
Qed.

(** X4: when the selected document changes while a query is in flight,
    the conversation is reset but the session stays loading, so that
    questions on the new document are turned away until the old query
    settles; the turn for the old query is then appended to the new
    conversation, and the session is free again. *)
Theorem late_answer (env env1 env2 : Env) (props props' : Props)
        (w : World) (doc : Api.Document)
        (reply : forall c, Outcome (Reply c)) :
  ~ blank (inputValue (state w)) ->
  selectedDocument props = Some doc ->
  isLoading (state w) = false ->
  let asked := fire env (submit props) w in
  let changed := fire env1 (selectionChanged props') asked in
  let settled := fire env2 (Settle (List.length (awaiting w)) reply) changed in
  isLoading (state changed) = true /\
  (forall env3 typed',
     fire env3 (submit props') (fire env3 (Actions.type typed') changed)
     = fire env3 (Actions.type typed') changed) /\
  (exists turn,
     messages (state settled) = messages (state changed) ++ [turn] /\
     isUser turn = false /\
     (forall err,
        reply (QueryDocument (Api.id doc) (trim (inputValue (state w))))
        = Rejected err ->
        content turn = errorMarker ++ message err) /\
     (forall response,
        reply (QueryDocument (Api.id doc) (trim (inputValue (state w))))
        = Fulfilled response ->
        content turn = Api.answer response)) /\
  isLoading (state settled) = false /\
  awaiting settled = awaiting w.
Proof.
  intros Hq Hdoc Hidle asked changed settled. subst settled changed asked.
  destruct (accepted_world env props w doc Hq Hdoc Hidle) as (k & -> & Hk).
  rewrite reset_world. unfold withState, Actions.type.
  cbn [state setMessages isLoading messages inputValue
       nextTimer intervals timeouts awaiting calls outputs uncaught].
  split; [reflexivity|].
  split; [intros env3 typed'; apply Chat.submit_rejected;
          right; right; reflexivity|].
  unfold fire. cbn [awaiting].
  rewrite nth_error_last, removeNth_last. cbn [resume call].
  rewrite Hk. unfold withState.
  cbn [state messages isLoading awaiting].
  split; [|split; reflexivity].
  eexists. split; [reflexivity|].
  destruct (reply _) as [response|err]; cbn [isUser content].
  - split; [reflexivity|]. split; [discriminate|].
    intros r H. inversion H. reflexivity.
  - split; [reflexivity|]. split; [|discriminate].
    intros e H. inversion H. reflexivity.
Qed.

Lemma late_answer_witness :
  let asked := fire clock (submit onReport) typed in
  let changed := fire clock (selectionChanged onNotes) asked in
  let settled := fire clock (Settle 0 summarizing) changed in
  isLoading (state changed) = true /\ isLoading (state settled) = false.
Proof.
  intros asked changed settled.
  destruct (late_answer clock clock clock onReport onNotes typed report_v1
              summarizing Chat.typed_not_blank eq_refl eq_refl)
    as (H1 & _ & _ & H2 & _).
  split; [exact H1 | exact H2].
Defined.

(** X5: the send button and the guard of the handler agree: with no
    document selected the form is not there and a submission changes
    nothing; with the button disabled a submission changes nothing; with
    the button enabled a submission appends one turn, makes one call and
    sets the session loading. *)
Theorem send_button_agrees (env : Env) (props : Props) (w : World) :
  let w' := fire env (submit props) w in
  match Views.chat props (state w) with
  | Views.NoDocumentSelected => w' = w
  | Views.Conversation _ _ _ true => w' = w
  | Views.Conversation _ _ _ false =>
      List.length (messages (state w')) = S (List.length (messages (state w)))
      /\ List.length (calls w') = S (List.length (calls w))
      /\ isLoading (state w') = true
  end.
Proof.
  intro w'. subst w'. unfold Views.chat.
  destruct (selectedDocument props) as [doc|] eqn:Hdoc.
  - destruct (truthy (trim (inputValue (state w)))) eqn:Hq;
      destruct (isLoading (state w)) eqn:Hl; cbn [negb orb].
    + apply Chat.submit_rejected. auto.
    + apply Chat.blank_test in Hq.
      destruct (accepted_world env props w doc Hq Hdoc Hl) as (k & -> & _).
      cbn [state messages calls isLoading]. rewrite !length_app. simpl.
      repeat split; lia.
    + apply Chat.submit_rejected. auto.
    + apply Chat.submit_rejected. left.
      apply JSFacts.truthy_trim. exact Hq.
  - apply Chat.submit_rejected. auto.
Qed.

(** X6: what the conversation shows once a query has settled: the
    bubbles that were there, then the user's bubble (no avatar, no
    sources), then the assistant's bubble: with the answer and exactly the
    sources returned (none when the field is missing or [null]), or with
    the marked error and no sources. The input is enabled again, and the
    send button is disabled until something is typed. *)
Theorem exchange_shown (env env' : Env) (props : Props) (w : World)
        (doc : Api.Document) (reply : forall c, Outcome (Reply c)) :
  ~ blank (inputValue (state w)) ->
  selectedDocument props = Some doc ->
  isLoading (state w) = false ->
  let w' := fire env' (Settle (List.length (awaiting w)) reply)
                 (fire env (submit props) w) in
  exists before question last,
    Views.chat props (state w) = Views.Conversation before false false false /\
    Views.chat props (state w') =
      Views.Conversation
        (before ++ [MessageBubble.mkView false question []; last])
        false false true /\
    (forall text src,
       (forall c, reply c = Fulfilled (Api.mkQueryResponse text src)) ->
       last = MessageBubble.mkView true text
                match src with Val l => l | Undefined | Null => [] end) /\
    (forall err,
       (forall c, reply c = Rejected err) ->
       last = MessageBubble.mkView true (errorMarker ++ message err) []).
Proof.
  intros Hq Hdoc Hidle w'. subst w'.
  rewrite (Chat.query_settled env env' props w doc reply Hq Hdoc Hidle).
  destruct (accepted_world env props w doc Hq Hdoc Hidle) as (k & -> & _).
  unfold Views.chat. rewrite Hdoc, Hidle.
  apply Chat.blank_test in Hq. rewrite Hq.
  cbn [state messages inputValue isLoading negb orb].
  eexists _, _, _. split; [reflexivity|]. split.
  - rewrite !map_app. cbn [map]. rewrite <- app_assoc. reflexivity.
  - split.
    + intros text src Hreply. rewrite Hreply.
      destruct src as [| |[|x l]]; reflexivity.
    + intros err Hreply. rewrite Hreply. reflexivity.
Qed.

Lemma exchange_shown_witness :
  exists bubbles,
    Views.chat onReport
      (state (fire clock (Settle 0 summarizing)
                   (fire clock (submit onReport) typed)))
    = Views.Conversation bubbles false false true.
Proof.
  destruct (exchange_shown clock clock onReport typed report_v1 summarizing
              Chat.typed_not_blank eq_refl eq_refl)
    as (before & q & last & _ & H & _).
  eexists. exact H.
Defined.

End Conversation.

(* ================================================================== *)
(** * More on the document registry                                    *)
(* ================================================================== *)

Module Documents.
Import JS Proc App ProcFacts Examples Invariants.

Lemma entriesWith_zero (docId : jsstring) (l : list Api.Document) :
  entriesWith docId l = 0%nat <-> ~ In docId (map Api.id l).
Proof.
  unfold entriesWith. induction l as [|d l IH]; simpl.
  - tauto.
  - destruct (JS.eqb (Api.id d) docId) eqn:E; simpl.
    + apply eqb_eq in E. split; [discriminate | intro H; elim H; auto].
    + rewrite IH. split; [|tauto].
      intros H [Hd|Hin]; [|tauto].
      apply eqb_eq in Hd. congruence.
Qed.

Lemma filter_ids_NoDup (f : Api.Document -> bool) (l : list Api.Document) :
  NoDup (map Api.id l) -> NoDup (map Api.id (filter f l)).
Proof.
  induction l as [|d l IH]; simpl; intro H; [constructor|].
  inversion H as [|x xs Hnotin Hnodup]; subst.
  destruct (f d); simpl; auto.
  constructor; auto.
  intro Hin. apply Hnotin.
  apply in_map_iff in Hin. destruct Hin as (d' & Hid & Hin').
  apply filter_In in Hin'. apply in_map_iff. exists d'. tauto.
Qed.

(** X7: ids stay unique under acknowledged deletes and under clicks on
    the list; an upload keeps them unique exactly when its id is not
    listed yet. *)
Theorem unique_ids (env : Env) (w : World) :
  uniqueIds (state w) ->
  (forall docId, uniqueIds (state (fire env (removed docId) w))) /\
  (forall i, uniqueIds (state (fire env (select i) w))) /\
  (forall doc,
     uniqueIds (state (fire env (uploaded doc) w)) <->
     entriesWith (Api.id doc) (documents (state w)) = 0%nat).
Proof.
  unfold uniqueIds. intro H. split; [|split].
  - intro docId. rewrite Registry.removed_state. simpl.
    apply filter_ids_NoDup. exact H.
  - intro i. rewrite Registry.select_state.
    destruct (nth_error (documents (state w)) i); exact H.
  - intro doc. simpl. rewrite entriesWith_zero. split.
    + intro Hn. inversion Hn. assumption.
    + intro Hn. constructor; assumption.
Qed.

Lemma unique_ids_witness :
  let w := idle (mkState [report_v1; notes] (Some notes) false) in
  uniqueIds (state (fire clock (removed (lit "d2")) w)) /\
  ~ uniqueIds (state (fire clock (uploaded report_v2) w)).
Proof.
  intro w.
  assert (H : uniqueIds (state w)).
  { unfold uniqueIds. simpl.
    constructor; [|constructor; [|constructor]]; simpl.
    - intros [H|[]]. discriminate H.
    - intros []. }
  destruct (unique_ids clock w H) as (Hr & _ & Hu).
  split; [apply Hr|].
  intro Hn. apply Hu in Hn. discriminate Hn.
Defined.

(** X8: deleting the document that was just uploaded, when its id was
    not listed before, gives back the sequence there was; the selection is
    not given back: it is empty. *)
Theorem remove_undoes_upload (env env' : Env) (w : World)
        (doc : Api.Document) :
  entriesWith (Api.id doc) (documents (state w)) = 0%nat ->
  let w' := fire env' (removed (Api.id doc)) (fire env (uploaded doc) w) in
  documents (state w') = documents (state w) /\
  selectedDocument (state w') = None.
Proof.
  intros Hfresh w'. subst w'. rewrite Registry.removed_state. simpl.
  rewrite eqb_refl. simpl. split; [|reflexivity].
  apply Registry.filter_keeps. exact Hfresh.
Qed.

Lemma remove_undoes_upload_witness :
  let w := idle (mkState [notes] (Some notes) false) in
  documents (state (fire clock (removed (lit "d1"))
                         (fire clock (uploaded report_v1) w))) = [notes].
Proof.
  intro w.
  destruct (remove_undoes_upload clock clock w report_v1 eq_refl) as [H _].
  exact H.
Defined.

Lemma filter_twice {A} (f : A -> bool) (l : list A) :
  filter f (filter f l) = filter f l.
Proof.
  induction l as [|a l IH]; simpl; auto.
  destruct (f a) eqn:E; simpl; rewrite ?E, IH; reflexivity.
Qed.

(** X9: deleting the same id a second time changes nothing. *)
Theorem remove_twice (env env' : Env) (docId : jsstring) (w : World) :
  state (fire env' (removed docId) (fire env (removed docId) w)) =
  state (fire env (removed docId) w).
Proof.
  rewrite (Registry.removed_state env' docId).
  rewrite !Registry.removed_state. simpl. rewrite filter_twice.
  destruct (selectedIs (selectedDocument (state w)) docId) eqn:E; simpl;
    rewrite ?E; reflexivity.
Qed.

(** X10: when the user declines the confirmation, the click on a delete
    button does nothing: no request, no change, no alert. *)
Theorem delete_declined (env : Env) (i : nat) (w : World) :
  (forall m, confirm env m = false) ->
  fire env (delete i) w = w.
Proof.
  intro Hno. unfold delete, fire, DocumentList.clickDelete.
  cbn [DocumentList.documents documentListProps].
  destruct (nth_error (documents (state w)) i) as [doc|];
    [|destruct w; reflexivity].
  unfold DocumentList.handleDelete. cbn [run exec]. rewrite Hno.
  destruct w; reflexivity.
Qed.

Lemma delete_declined_witness :
  let w := idle (mkState [report_v1; notes] (Some notes) false) in
  fire declining (delete 0) w = w.
Proof.
  intro w. apply (delete_declined declining 0 w). intro m. reflexivity.
Defined.

(** X11: a confirmed delete that the service acknowledges, with nothing
    happening in between: one request is made, for the document of the
    card; every entry with its id leaves the sequence and the others stay
    in order; the selection is cleared when it carried that id and kept
    otherwise; there is no alert and nothing is left pending. *)
Theorem delete_acknowledged (env env' : Env) (i : nat) (w : World)
        (doc : Api.Document) (reply : forall c, Outcome (Reply c)) :
  nth_error (documents (state w)) i = Some doc ->
  (forall m, confirm env m = true) ->
  (forall docId, exists r, reply (DeleteDocument docId) = Fulfilled r) ->
  let w' := fire env' (Settle (List.length (awaiting w)) reply)
                 (fire env (delete i) w) in
  map what (calls w') = map what (calls w) ++ [DeleteDocument (Api.id doc)] /\
  documents (state w') =
    filter (fun d => negb (JS.eqb (Api.id d) (Api.id doc)))
           (documents (state w)) /\
  entriesWith (Api.id doc) (documents (state w')) = 0%nat /\
  (selectedIs (selectedDocument (state w)) (Api.id doc) = true ->
     selectedDocument (state w') = None) /\
  (selectedIs (selectedDocument (state w)) (Api.id doc) = false ->
     selectedDocument (state w') = selectedDocument (state w)) /\
  outputs w' = outputs w /\ awaiting w' = awaiting w /\
  uncaught w' = uncaught w.
Proof.
  intros Hdoc Hyes Hack w'. subst w'.
  destruct (Registry.delete_world env i w doc Hdoc Hyes) as (k & -> & Hok & _).
  unfold fire. cbn [awaiting].
  rewrite nth_error_last, removeNth_last. cbn [resume call].
  destruct (Hack (Api.id doc)) as [r ->]. rewrite Hok.
  unfold handleDeleteDocument.
  destruct (selectedIs (selectedDocument (state w)) (Api.id doc)) eqn:E;
    cbn [run exec state withState setDocuments setSelectedDocument documents
         selectedDocument calls outputs awaiting uncaught];
    unfold withState;
    cbn [state setDocuments setSelectedDocument documents
         selectedDocument calls outputs awaiting uncaught];
    rewrite map_app; cbn [map what];
    (split; [reflexivity|]); (split; [reflexivity|]);
    (split; [unfold entriesWith; apply Registry.filter_drops|]);
    repeat split; try discriminate; try reflexivity.
Qed.

Lemma delete_acknowledged_witness :
  let w := idle (mkState [report_v1; notes] (Some report_v1) false) in
  let w' := fire clock (Settle 0 acknowledging) (fire clock (delete 0) w) in
  documents (state w') = [notes] /\ selectedDocument (state w') = None.
Proof.
  intros w w'.
  destruct (delete_acknowledged clock clock 0 w report_v1 acknowledging
              eq_refl (fun _ => eq_refl))
    as (_ & Hd & _ & Hs & _).
  { intro docId. eexists. reflexivity. }
  split; [exact Hd | apply Hs; reflexivity].
Defined.

(** X12: a delete that is acknowledged after the user has clicked the
    card of the document being deleted: the handler that resumes compares
    with the selection of the render of the click, so the document leaves
    the sequence and stays selected; the selection is then not a listed
    document. *)
Theorem delete_after_reselect (env env1 env2 : Env) (i : nat) (w : World)
        (doc : Api.Document) (reply : forall c, Outcome (Reply c)) :
  nth_error (documents (state w)) i = Some doc ->
  selectedIs (selectedDocument (state w)) (Api.id doc) = false ->
  (forall m, confirm env m = true) ->
  (forall docId, exists r, reply (DeleteDocument docId) = Fulfilled r) ->
  let clicked := fire env1 (select i) (fire env (delete i) w) in
  let w' := fire env2 (Settle (List.length (awaiting w)) reply) clicked in
  selectedDocument (state clicked) = Some doc /\
  selectedDocument (state w') = Some doc /\
  entriesWith (Api.id doc) (documents (state w')) = 0%nat /\
  ~ selectionListed (state w').
Proof.
  intros Hdoc Hsel Hyes Hack clicked w'. subst w' clicked.
  destruct (Registry.delete_world env i w doc Hdoc Hyes) as (k & -> & Hok & _).
  assert (Hclicked :
    fire env1 (select i)
      (mkWorld (state w) (nextTimer w) (intervals w) (timeouts w)
               (awaiting w ++ [mkPending (DeleteDocument (Api.id doc)) k])
               (calls w ++ [mkCalled (DeleteDocument (Api.id doc)) (state w)
                                  (state w)])
               (outputs w) (uncaught w)) =
      mkWorld (setSelectedDocument (Some doc) (state w))
              (nextTimer w) (intervals w) (timeouts w)
              (awaiting w ++ [mkPending (DeleteDocument (Api.id doc)) k])
              (calls w ++ [mkCalled (DeleteDocument (Api.id doc)) (state w)
                                  (state w)])
              (outputs w) (uncaught w)).
  { unfold select, fire, DocumentList.clickCard.
    cbn [state DocumentList.documents documentListProps].
    rewrite Hdoc. reflexivity. }
  rewrite Hclicked. split; [reflexivity|].
  unfold fire. cbn [awaiting].
  rewrite nth_error_last, removeNth_last. cbn [resume call].
  destruct (Hack (Api.id doc)) as [r ->]. rewrite Hok.
  unfold handleDeleteDocument. rewrite Hsel.
  cbn [run exec]. unfold withState.
  cbn [state setDocuments setSelectedDocument documents selectedDocument].
  split; [reflexivity|].
  assert (Hgone :
    entriesWith (Api.id doc)
      (filter (fun d => negb (JS.eqb (Api.id d) (Api.id doc)))
              (documents (state w))) = 0%nat)
    by (unfold entriesWith; apply Registry.filter_drops).
  split; [exact Hgone|].
  unfold selectionListed.
  cbn [selectedDocument documents].
  intros (d' & Hin & Hid).
  apply entriesWith_zero in Hgone. apply Hgone.
  apply in_map_iff. exists d'. auto.
Qed.

Lemma delete_after_reselect_witness :
  let w := idle (mkState [report_v1; notes] (Some notes) false) in
  let w' := fireAll [(clock, delete 0); (clock, select 0);
                     (clock, Settle 0 acknowledging)] w in
  selectedDocument (state w') = Some report_v1 /\
  ~ selectionListed (state w').
Proof.
  intros w w'.
  destruct (delete_after_reselect clock clock clock 0 w report_v1
              acknowledging eq_refl eq_refl (fun _ => eq_refl))
    as (_ & Hs & _ & Hn).
  { intro docId. eexists. reflexivity. }
  split; [exact Hs | exact Hn].
Defined.

Lemma marked_filter (snap : State) :
  Views.marked (Views.cards (documentListProps snap)) =
  filter (fun d => selectedIs (selectedDocument snap) (Api.id d))
         (documents snap).
Proof.
  unfold Views.cards. cbn [DocumentList.documents documentListProps
                           DocumentList.selectedDocument].
  destruct (documents snap) as [|d l]; [reflexivity|].
  cbn [List.length Nat.eqb Views.marked].
  generalize (d :: l). intro l'.
  induction l' as [|x l' IH]; [reflexivity|].
  cbn [map filter snd].
  destruct (selectedIs (selectedDocument snap) (Api.id x));
    cbn [map fst]; rewrite IH; reflexivity.
Qed.

Lemma filter_unique_id (x : jsstring) (d : Api.Document)
      (l : list Api.Document) :
  NoDup (map Api.id l) -> In d l -> Api.id d = x ->
  filter (fun y => JS.eqb x (Api.id y)) l = [d].
Proof.
  induction l as [|a l IH]; simpl; intros Hnd Hin Hid; [contradiction|].
  inversion Hnd as [|? ? Hnotin Hnd']; subst.
  destruct Hin as [->|Hin].
  - rewrite eqb_refl. f_equal.
    clear IH Hnd Hnd'. induction l as [|b l IH]; [reflexivity|].
    simpl. destruct (JS.eqb (Api.id d) (Api.id b)) eqn:E.
    + apply eqb_eq in E. elim Hnotin. left. auto.
    + apply IH. intro H. apply Hnotin. right. exact H.
  - destruct (JS.eqb (Api.id d) (Api.id a)) eqn:E.
    + apply eqb_eq in E. elim Hnotin. rewrite <- E.
      apply in_map. exact Hin.
    + apply IH; auto.
Qed.

(** X13: when ids are unique and the selection is a listed document,
    the list marks exactly one card as selected, the one with the id of
    the selection; with no selection it marks none. *)
Theorem one_card_marked (snap : State) :
  uniqueIds snap -> selectionListed snap ->
  match selectedDocument snap with
  | Some d =>
      exists d',
        Views.marked (Views.cards (documentListProps snap)) = [d'] /\
        In d' (documents snap) /\ Api.id d' = Api.id d
  | None => Views.marked (Views.cards (documentListProps snap)) = []
  end.
Proof.
  unfold uniqueIds, selectionListed. intros Hnd Hsel.
  rewrite marked_filter.
  destruct (selectedDocument snap) as [d|]; cbn [selectedIs].
  - destruct Hsel as (d' & Hin & Hid). exists d'.
    split; [|split; assumption]. apply filter_unique_id; assumption.
  - induction (documents snap) as [|a l IH]; [reflexivity|].
    cbn [filter]. apply IH. inversion Hnd; assumption.
Qed.

Lemma one_card_marked_witness :
  exists d,
    Views.marked
      (Views.cards
         (documentListProps (mkState [report_v1; notes] (Some notes) false)))
    = [d].
Proof.
  assert (Hu : uniqueIds (mkState [report_v1; notes] (Some notes) false)).
  { unfold uniqueIds. simpl.
    constructor; [|constructor; [|constructor]]; simpl.
    - intros [H|[]]. discriminate H.
    - intros []. }
  assert (Hs : selectionListed
                 (mkState [report_v1; notes] (Some notes) false)).
  { exists notes. split; [right; left|]; reflexivity. }
  destruct (one_card_marked _ Hu Hs) as (d' & H & _).
  exists d'. exact H.
Defined.

(** X14: starting from the initial state, after any sequence of
    uploads, acknowledged deletes (of the render they are acknowledged in)
    and clicks on the list, the selection is empty or carries the id of a
    listed document. *)
Theorem selection_always_listed (evs : list (Env * Event)) :
  Forall (fun e => registryOp (snd e)) evs ->
  selectionListed (state (fireAll evs (idle initial))).
Proof.
  assert (H : forall (w : World),
             selectionListed (state w) ->
             Forall (fun e => registryOp (snd e)) evs ->
             selectionListed (state (fireAll evs w))).
  { induction evs as [|[env ev] evs IH]; intros w Hw Hall; [exact Hw|].
    inversion Hall; subst. cbn [fireAll].
    apply IH; [|assumption].
    apply Registry.selectionListed_preserved; assumption. }
  apply H. exact I.
Qed.

Lemma selection_always_listed_witness :
  selectionListed
    (state (fireAll [(clock, uploaded report_v1); (clock, uploaded notes);
                     (clock, select 1); (clock, removed (lit "d1"))]
                    (idle initial))).
Proof.
  apply selection_always_listed.
  repeat constructor.
Defined.

End Documents.

(* ================================================================== *)
(** * More on the upload session                                       *)
(* ================================================================== *)

Module Attempt.
Import JS Proc FileUpload ProcFacts Examples.





(** X17: the type of the file is checked before its size: a file
    without the extension gets the message about the type, however large
    it is; the message about the size is for files with the extension
    that are too large. *)
Theorem validation_reasons (env : Env) (props : Props) (file : Api.File)
        (w : World) :
  let w' := run env (handleFile props file) w in
  (~ hasPdfExtension (Api.name file) ->
     error (state w') = Some (lit "Please upload a PDF file")) /\
  (hasPdfExtension (Api.name file) -> 50 * MiB < Api.size file ->
     error (state w') = Some (lit "File size must be less than 50MB")).
Proof.
  intro w'. subst w'. unfold handleFile. split.
  - intro H. apply Upload.extension_test in H. rewrite H. reflexivity.
  - intros H Hsize. apply JSFacts.endsWith_pdf in H. rewrite H.
    assert (Hlt : (50 * 1024 * 1024 <? Api.size file) = true)
      by (apply N.ltb_lt; unfold MiB in Hsize; lia).
    rewrite Hlt. reflexivity.
Qed.

Lemma validation_reasons_witness :
  error (state (run clock (handleFile noProps hugePicture) (idle initial)))
  = Some (lit "Please upload a PDF file") /\
  error (state (run clock (handleFile noProps hugeReport) (idle initial)))
  = Some (lit "File size must be less than 50MB").
Proof.
  split.
  - destruct (validation_reasons clock noProps hugePicture (idle initial))
      as [H _].
    apply H. apply Upload.extension_test. reflexivity.
  - destruct (validation_reasons clock noProps hugeReport (idle initial))
      as [_ H].
    apply H.
    + exists (lit "big"), 112, 100, 102. repeat split; auto.
    + unfold MiB. simpl. lia.
Defined.

(** X18: a drop ends the dragging state and hides the drop prompt;
    it makes an upload call exactly when it carries files and the first
    of them passes validation, and then for that file only. Otherwise no
    call is made and nothing starts. *)
Theorem drop_uploads_first (env : Env) (props : Props) (e : DragData)
        (w : World) :
  let w' := fire env (Actions.drop props e) w in
  isDragging (state w') = false /\
  Views.dropPrompt (Views.upload (state w')) = false /\
  ((exists file rest,
      files e = Val (file :: rest) /\
      hasPdfExtension (Api.name file) /\ Api.size file <= 50 * MiB /\
      map what (calls w') = map what (calls w) ++ [UploadDocument file] /\
      isUploading (state w') = true)
   \/
   (~ (exists file rest,
         files e = Val (file :: rest) /\
         hasPdfExtension (Api.name file) /\ Api.size file <= 50 * MiB) /\
    calls w' = calls w /\ awaiting w' = awaiting w /\
    intervals w' = intervals w /\
    isUploading (state w') = isUploading (state w))).
Proof.
  intro w'. subst w'.
  unfold Actions.drop, fire, handleDrop, firstFile. cbn [run exec].
  assert (Hnone : forall v : World,
            isDragging (state v) = false ->
            Views.dropPrompt (Views.upload (state v)) = false).
  { intros v Hv. unfold Views.upload. cbn [Views.dropPrompt].
    rewrite Hv. apply andb_false_r. }
  destruct (files e) as [| |[|file rest]] eqn:Hfiles.
  1-3: cbn [run exec]; split; [reflexivity|]; split;
       [apply Hnone; reflexivity|]; right;
       split; [intros (f & r & H & _); discriminate | repeat split].
  unfold handleFile.
  destruct (endsWith (toLowerCase (Api.name file)) (lit ".pdf")) eqn:Hext;
    cbn [negb].
  - destruct (50 * 1024 * 1024 <? Api.size file) eqn:Hsize.
    + cbn. split; [reflexivity|]. split; [apply andb_false_r|]. right.
      split; [|repeat split].
      intros (f & r & H & _ & Hle). inversion H; subst f r.
      apply Upload.size_test in Hle. congruence.
    + cbn. split; [reflexivity|]. split; [reflexivity|]. left.
      exists file, rest. split; [reflexivity|].
      split; [apply JSFacts.endsWith_pdf; exact Hext|].
      split; [apply Upload.size_test; exact Hsize|].
      rewrite map_app. split; reflexivity.
  - cbn. split; [reflexivity|]. split; [apply andb_false_r|]. right.
    split; [|repeat split].
    intros (f & r & H & Hx & _). inversion H; subst f r.
    apply JSFacts.endsWith_pdf in Hx. congruence.
Qed.

End Attempt.

(* ================================================================== *)
(** * More on the transport, and the components on top of it           *)
(* ================================================================== *)

Module Wiring.
Import JS Proc ProcFacts Examples.



(** The bodies that FastAPI sends with a 422, [{"detail": [{...}]}], with
    an empty list of details, with a number for a detail, and the body
    [null]: what the upload throws on each. *)
Lemma unusual_details :
  let thrown (body : Json) :=
    fst (Api.perform (always (Api.Failure (Fulfilled body)))
                     (Api.uploadDocument reportFile) []) in
  thrown (JObject [(lit "detail",
                    JArray [JObject [(lit "msg", JString (lit "field required"))]])])
    = Rejected (mkError (lit "[object Object]")) /\
  thrown (JObject [(lit "detail", JArray [])]) = Rejected (mkError []) /\
  thrown (JObject [(lit "detail", JNumber false (lit "404"))])
    = Rejected (mkError (lit "404")) /\
  thrown (JObject [(lit "detail", JString [])])
    = Rejected (mkError (lit "Upload failed")) /\
  thrown (JObject [(lit "message", JString (lit "no such file"))])
    = Rejected (mkError (lit "Upload failed")) /\
  thrown JNull
    = Rejected
        (mkError (lit "Cannot read properties of null (reading 'detail')")).
Proof. cbv zeta. repeat split. Qed.








(** The load on mount against a service that answers 500 with a body
    that has no [detail], and with a list of details. *)
Lemma load_outcome_examples :
  let logged (body : Json) :=
    let o : Outcome (Api.Response Api.ListResponse) :=
      Fulfilled (Api.Failure (Fulfilled body)) in
    outputs (fire clock (Settle 0 (App.adapter (fun _ _ => o) offline))
                  (fire clock App.mount (idle App.initial))) in
  logged (JObject [(lit "error", JString (lit "boom"))])
    = [App.ConsoleError (lit "Failed to load documents:")
                        (mkError (lit "Failed to fetch documents"))] /\
  logged (JObject [(lit "detail",
                    JArray [JString (lit "a"); JNull; JNumber false (lit "7")])])
    = [App.ConsoleError (lit "Failed to load documents:")
                        (mkError (lit "a,,7"))].
Proof. cbv zeta. split; reflexivity. Qed.

(** X24: an upload, from the panel to the conversation. When the upload
    of a valid file succeeds and the timeout has fired, the panel has sent
    out the document of the response, once; delivered to [App], it puts
    the document at the head of the sequence, selects it and closes the
    panel; and the effect of [ChatInterface] on that selection leaves the
    one opening turn, which mentions the page count and the chunk count of
    the document, each before its noun: a count is written as a template
    literal writes a number, never as the empty text, and for a count up
    to 2^53 as its decimal numeral. *)
Theorem upload_to_conversation (env : Env) (file : Api.File)
        (s : FileUpload.State) (document : Api.Document)
        (app : App.World) (chat : ChatInterface.World) :
  FileUpload.hasPdfExtension (Api.name file) ->
  Api.size file <= 50 * FileUpload.MiB ->
  let uploadedTo : forall c, Outcome (FileUpload.Reply c) :=
    fun _ => Fulfilled (Api.mkUploadResponse document) in
  let panel :=
    fireAll [(env, Settle 0 uploadedTo); (env, Expire 1)]
            (run env (FileUpload.handleFile Wires.fileUploadProps file)
                 (idle s)) in
  let app' :=
    fireAll (map (fun ev => (env, ev)) (flat_map Wires.deliver (outputs panel)))
            app in
  let chat' :=
    fire env (ChatInterface.selectionChanged (Wires.chatProps (state app')))
         chat in
  outputs panel = [FileUpload.OnUploadSuccess document] /\
  App.documents (state app') = document :: App.documents (state app) /\
  App.selectedDocument (state app') = Some document /\
  App.showUpload (state app') = false /\
  exists turn pages chunks,
    ChatInterface.messages (state chat') = [turn] /\
    ChatInterface.isUser turn = false /\
    ChatInterface.mentions
      (ChatInterface.content turn)
      (lit "I've processed " ++ pages ++ lit " pages into " ++ chunks
         ++ lit " searchable chunks") /\
    pages = numberToString (Api.page_count document) /\
    chunks = numberToString (Api.chunk_count document) /\
    pages <> [] /\ chunks <> [] /\
    (Api.page_count document <= 2 ^ 53 ->
     decimalNumeral (Api.page_count document) pages) /\
    (Api.chunk_count document <= 2 ^ 53 ->
     decimalNumeral (Api.chunk_count document) chunks).
Proof.
  intros Hext Hsize uploadedTo panel app' chat'.
  apply JSFacts.endsWith_pdf in Hext. apply Upload.size_test in Hsize.
  assert (Hpanel : outputs panel = [FileUpload.OnUploadSuccess document]).
  { subst panel. unfold FileUpload.handleFile. rewrite Hext, Hsize.
    reflexivity. }
  split; [exact Hpanel|].
  subst chat' app'. rewrite Hpanel. cbn.
  split; [reflexivity|]. split; [reflexivity|]. split; [reflexivity|].
  eexists. exists (numberToString (Api.page_count document)).
  exists (numberToString (Api.chunk_count document)).
  split; [reflexivity|]. split; [reflexivity|].
  split; [apply Chat.opening_text|].
  do 2 (split; [reflexivity|]).
  split; [apply NumberFacts.numberToString_written|].
  split; [apply NumberFacts.numberToString_written|].
  split; apply NumberFacts.numberToString_numeral.
Qed.

Lemma upload_to_conversation_witness :
  let uploadedTo : forall c, Outcome (FileUpload.Reply c) :=
    fun _ => Fulfilled (Api.mkUploadResponse report_v1) in
  let panel :=
    fireAll [(clock, Settle 0 uploadedTo); (clock, Expire 1)]
            (run clock
                 (FileUpload.handleFile Wires.fileUploadProps reportFile)
                 (idle FileUpload.initial)) in
  let app' :=
    fireAll (map (fun ev => (clock, ev))
                 (flat_map Wires.deliver (outputs panel)))
            (idle App.initial) in
  let chat' :=
    fire clock (ChatInterface.selectionChanged (Wires.chatProps (state app')))
         (idle ChatInterface.initial) in
  App.documents (state app') = [report_v1] /\
  exists turn,
    ChatInterface.messages (state chat') = [turn] /\
    ChatInterface.mentions (ChatInterface.content turn)
                           (lit "5 pages into 12 searchable chunks") /\
    decimalNumeral 5 (lit "5") /\ decimalNumeral 12 (lit "12").
Proof.
  intros uploadedTo panel app' chat'.
  assert (Hsize : Api.size reportFile <= 50 * FileUpload.MiB)
    by (unfold FileUpload.MiB; simpl; lia).
  destruct (upload_to_conversation clock reportFile FileUpload.initial
              report_v1 (idle App.initial) (idle ChatInterface.initial)
              Upload.report_has_extension Hsize)
    as (_ & H & _ & _ & turn & pages & chunks & Hm & _ & Hs & -> & -> & _
        & _ & Hp & Hc).
  split; [exact H|]. exists turn. split; [exact Hm|]. split.
  - destruct Hs as (before & after & ->).
    exists (before ++ lit "I've processed "), after.
    repeat rewrite <- app_assoc. reflexivity.
  - split; [apply Hp | apply Hc]; vm_compute; discriminate.
Defined.

(** X25: a delete, from the list to the conversation. When the selected
    document is deleted (confirmed, acknowledged, nothing in between), no
    document is selected any more, the chat shows the placeholder instead
    of the conversation, and the effect of [ChatInterface] on that
    selection empties the conversation. *)
Theorem delete_to_conversation (env env' : Env) (i : nat) (app : App.World)
        (doc : Api.Document) (reply : forall c, Outcome (App.Reply c))
        (chat : ChatInterface.World) :
  nth_error (App.documents (state app)) i = Some doc ->
  App.selectedIs (App.selectedDocument (state app)) (Api.id doc) = true ->
  (forall m, confirm env m = true) ->
  (forall docId, exists r, reply (App.DeleteDocument docId) = Fulfilled r) ->
  let app' := fire env' (Settle (List.length (awaiting app)) reply)
                   (fire env (App.delete i) app) in
  let chat' :=
    fire env' (ChatInterface.selectionChanged (Wires.chatProps (state app')))
         chat in
  App.selectedDocument (state app') = None /\
  ~ In doc (App.documents (state app')) /\
  Views.chat (Wires.chatProps (state app')) (state chat')
  = Views.NoDocumentSelected /\
  ChatInterface.messages (state chat') = [].
Proof.
  intros Hdoc Hsel Hyes Hack app' chat'.
  assert (Hstate :
    state app' =
    App.mkState
      (filter (fun d => negb (JS.eqb (Api.id d) (Api.id doc)))
              (App.documents (state app)))
      None (App.showUpload (state app))).
  { subst app'.
    destruct (Registry.delete_world env i app doc Hdoc Hyes)
      as (k & -> & Hok & _).
    unfold fire. cbn [awaiting].
    rewrite nth_error_last, removeNth_last. cbn [resume call].
    destruct (Hack (Api.id doc)) as [r ->]. rewrite Hok.
    unfold App.handleDeleteDocument. rewrite Hsel. reflexivity. }
  subst chat'. rewrite Hstate. clear Hstate.
  cbn [App.selectedDocument App.documents].
  split; [reflexivity|]. split; [|split; reflexivity].
  intro Hin. apply filter_In in Hin. destruct Hin as [_ Hin].
  rewrite eqb_refl in Hin. discriminate.
Qed.

Lemma delete_to_conversation_witness :
  let app := idle (App.mkState [report_v1; notes] (Some report_v1) false) in
  let app' := fire clock (Settle 0 acknowledging)
                   (fire clock (App.delete 0) app) in
  Views.chat (Wires.chatProps (state app'))
             (state (fire clock
                          (ChatInterface.selectionChanged
                             (Wires.chatProps (state app')))
                          typed))
  = Views.NoDocumentSelected.
Proof.
  intros app app'.
  destruct (delete_to_conversation clock clock 0 app report_v1 acknowledging
              typed eq_refl eq_refl (fun _ => eq_refl))
    as (_ & _ & H & _).
  { intro docId. eexists. reflexivity. }
  exact H.
Defined.

End Wiring.
